(** * Team catcher: the gym adapter [TeamCatcher] and the grid engine it drives

    The development follows [gym_ma_toy/envs/coop/team_catcher.py].  The
    adapter class [TeamCatcher] is embedded method by method; the engine class
    [World] it imports from [.game] is taken through the interface the adapter
    uses ([WorldClass]), and, for the properties that are about the engine
    itself, through a model written from the design document ([Module Engine]).

    Python integers are unbounded: they are [Z].  A Python dict is an
    association list in insertion order (keys are unique in every dict built
    here).  A method that can raise returns an [Outcome]; the object and the
    process state it has mutated up to the raise are returned with it.

    [render] is embedded after the engine, over the palette of [.game], PIL's
    resize and gym's viewer, which are outside the sources. *)

From Stdlib Require Import ZArith Lia.
From stdpp Require Import base list strings pretty.

Set Warnings "-register-all".
Open Scope Z_scope.

(** ** Python values shared by the adapter and the engine *)

(** An exception: its class and the numbers interpolated in its message. *)
Inductive ExnClass :=
| ValueError
| TypeError
| ConfigurationError
| IndexError
| AssertionError.

Record Exn := Raise { exn_class : ExnClass; exn_args : list Z }.

Inductive Outcome (A : Type) :=
| Raised (e : Exn)
| Returned (a : A).
Arguments Raised {A} e.
Arguments Returned {A} a.

(** A computation over a mutable state [S] that returns or raises. *)
Definition M (S A : Type) : Type := S -> S * Outcome A.

Definition ret {S A} (a : A) : M S A := fun s => (s, Returned a).

Definition raise {S A} (e : Exn) : M S A := fun s => (s, Raised e).

Definition bind {S A B} (m : M S A) (k : A -> M S B) : M S B :=
  fun s =>
    match m s with
    | (s', Returned a) => k a s'
    | (s', Raised e) => (s', Raised e)
    end.

Definition get {S} : M S S := fun s => (s, Returned s).

Definition put {S} (s : S) : M S unit := fun _ => (s, Returned tt).

Notation "x <- c1 ;; c2" := (bind c1 (fun x => c2))
  (at level 100, c1 at next level, right associativity).
Notation "c1 ;; c2" := (bind c1 (fun _ => c2))
  (at level 100, right associativity).

Definition returned {A} (o : Outcome A) : bool :=
  match o with Returned _ => true | Raised _ => false end.

(** The process-global state the adapter reaches: numpy's legacy generator
    behind [np.random], and the display the viewer draws on.  The generator
    state is kept as what determines it: how it was last seeded and how many
    words were drawn since. *)
Inductive Seeding :=
| FromSeed (s : Z)
| FromEntropy (k : nat).

Record Generator := { seeding : Seeding; drawn : nat }.

Inductive DisplayEvent :=
| ViewerClosed (v : nat).

Record Process := {
  np_random : Generator;
  entropy_reads : nat;
  display : list DisplayEvent
}.

(** [np.random.seed(seed)]: an integer seed must fit 32 bits; [None] reads
    fresh entropy from the operating system. *)
Definition np_random_seed (seed : option Z) : M Process unit :=
  fun p =>
    match seed with
    | Some s =>
        if (0 <=? s) && (s <=? 2 ^ 32 - 1) then
          ({| np_random := {| seeding := FromSeed s; drawn := 0 |};
              entropy_reads := entropy_reads p;
              display := display p |}, Returned tt)
        else (p, Raised (Raise ValueError [s]))
    | None =>
        ({| np_random := {| seeding := FromEntropy (entropy_reads p); drawn := 0 |};
            entropy_reads := S (entropy_reads p);
            display := display p |}, Returned tt)
    end.

(** [SimpleImageViewer.close] of gym's rendering: the window of viewer [v] is
    closed on the display. *)
Definition viewer_close (v : nat) : M Process unit :=
  fun p =>
    ({| np_random := np_random p;
        entropy_reads := entropy_reads p;
        display := display p ++ [ViewerClosed v] |}, Returned tt).

(** [dict.get]-like lookup in a dict kept as an association list. *)
Fixpoint dict_get {V} (k : string) (d : list (string * V)) : option V :=
  match d with
  | [] => None
  | (k', v) :: d' => if String.eqb k k' then Some v else dict_get k d'
  end.

(** [range(n)] *)
Definition range (n : Z) : list Z := Z.of_nat <$> seq 0 (Z.to_nat n).

(** [f"agent_{i+1}"] *)
Definition agent_key (i : Z) : string := "agent_" +:+ pretty (i + 1).

(** ** gym spaces, as far as the adapter declares them *)

Inductive Value :=
| VInt (z : Z)
| VArray (a : list (list Z))
| VTuple (l : list Value)
| VDict (d : list (string * Value)).

Inductive Space :=
| Box (low high : Z) (rows cols : Z)
| Discrete (n : Z)
| Tuple (l : list Space)
| Dict (d : list (string * Space)).

(** [x.shape == (rows, cols)] for a two-dimensional array *)
Definition has_shape (rows cols : Z) (a : list (list Z)) : bool :=
  (Z.of_nat (length a) =? rows) &&
  forallb (fun row => Z.of_nat (length row) =? cols) a.

(** [Space.contains]: a Box checks shape and bounds, a Discrete the range
    [0 <= x < n], a Tuple its components in order, a Dict that the value has
    as many keys and holds a contained value under each key of the space. *)
Fixpoint contains (s : Space) (v : Value) {struct s} : bool :=
  match s, v with
  | Box low high rows cols, VArray a =>
      has_shape rows cols a &&
      forallb (forallb (fun x => (low <=? x) && (x <=? high))) a
  | Discrete n, VInt z => (0 <=? z) && (z <? n)
  | Tuple l, VTuple vs =>
      (fix all2 (l : list Space) (vs : list Value) : bool :=
         match l, vs with
         | [], [] => true
         | s' :: l', v' :: vs' => contains s' v' && all2 l' vs'
         | _, _ => false
         end) l vs
  | Dict d, VDict x =>
      (length x =? length d)%nat &&
      (fix all_keys (d : list (string * Space)) : bool :=
         match d with
         | [] => true
         | (k, s') :: d' =>
             match dict_get k x with
             | Some v' => contains s' v' && all_keys d'
             | None => false
             end
         end) d
  | _, _ => false
  end.

(** ** What the adapter exchanges with the engine *)

(** An action mapping ["agent_<i>" -> code] *)
Definition Action : Type := list (string * Z).

(** [{"map": array, "agent_position": {"agent_<i>": (x, y)}}] *)
Record Observation := {
  map : list (list Z);
  agent_position : list (string * (Z * Z))
}.

Definition value_of_obs (o : Observation) : Value :=
  VDict [("map", VArray (map o));
         ("agent_position",
          VDict ((fun kp => (kp.1, VTuple [VInt kp.2.1; VInt kp.2.2]))
                   <$> agent_position o))].

(** [{"step": n, "target alive": t}] *)
Record StepInfo := { info_step : Z; info_target_alive : Z }.

(** The class [World] of [.game] as [TeamCatcher] uses it: the constructor,
    the two mutators, and the attributes read after them.  The engine's code may
    reach the process state too, so its methods run over both. *)
Record WorldClass := {
  World_t : Type;
  World_new : Z -> Z -> Z -> Z -> option Z -> M Process World_t;
  World_update : Action -> M (Process * World_t) unit;
  World_reset : M (Process * World_t) unit;
  World_get_state : World_t -> Observation;
  World_capturedTargets : World_t -> Z;
  World_capturedMobiles : World_t -> Z;
  World_nb_targets_alive : World_t -> Z
}.

(** [NB_ACTIONS = len(Actions)].
    Modelled from the spec: the enumeration [Actions] of [.game] is not in the
    sources; the action codes are [{0:NOOP,1:UP,2:DOWN,3:LEFT,4:RIGHT}]. *)
Definition NB_ACTIONS : Z := 5.

(** ** The adapter: class [TeamCatcher] *)

Section Adapter.

Variable W : WorldClass.

Record TeamCatcher := {
  grid_size : Z;
  action_space : Space;
  observation_space : Space;
  world : World_t W;
  nb_targets_alive : Z;
  obs : option Observation;
  viewer : option nat;
  nb_step : option Z
}.

Definition set_world (w : World_t W) (self : TeamCatcher) : TeamCatcher :=
  {| grid_size := grid_size self; action_space := action_space self;
     observation_space := observation_space self; world := w;
     nb_targets_alive := nb_targets_alive self; obs := obs self;
     viewer := viewer self; nb_step := nb_step self |}.

Definition set_nb_targets_alive (n : Z) (self : TeamCatcher) : TeamCatcher :=
  {| grid_size := grid_size self; action_space := action_space self;
     observation_space := observation_space self; world := world self;
     nb_targets_alive := n; obs := obs self;
     viewer := viewer self; nb_step := nb_step self |}.

Definition set_obs (o : option Observation) (self : TeamCatcher) : TeamCatcher :=
  {| grid_size := grid_size self; action_space := action_space self;
     observation_space := observation_space self; world := world self;
     nb_targets_alive := nb_targets_alive self; obs := o;
     viewer := viewer self; nb_step := nb_step self |}.

Definition set_viewer (v : option nat) (self : TeamCatcher) : TeamCatcher :=
  {| grid_size := grid_size self; action_space := action_space self;
     observation_space := observation_space self; world := world self;
     nb_targets_alive := nb_targets_alive self; obs := obs self;
     viewer := v; nb_step := nb_step self |}.

Definition set_nb_step (n : option Z) (self : TeamCatcher) : TeamCatcher :=
  {| grid_size := grid_size self; action_space := action_space self;
     observation_space := observation_space self; world := world self;
     nb_targets_alive := nb_targets_alive self; obs := obs self;
     viewer := viewer self; nb_step := n |}.

(** A method body reads and writes [self] inside the state [(process, self)]. *)
Definition get_self : M (Process * TeamCatcher) TeamCatcher :=
  fun s => (s, Returned s.2).

Definition modify_self (f : TeamCatcher -> TeamCatcher) : M (Process * TeamCatcher) unit :=
  fun s => ((s.1, f s.2), Returned tt).

(** A call of a method of [self.world] *)
Definition on_world {A} (m : M (Process * World_t W) A) : M (Process * TeamCatcher) A :=
  fun s =>
    match m (s.1, world s.2) with
    | ((p, w), r) => ((p, set_world w s.2), r)
    end.

(** A call that only touches the process *)
Definition on_process {A} (m : M Process A) : M (Process * TeamCatcher) A :=
  fun s =>
    match m s.1 with
    | (p, r) => ((p, s.2), r)
    end.

(** [seed]: reseeds the generator of the process. *)
Definition seed (sd : option Z) : M Process unit :=
  np_random_seed sd.

(** [compute_reward] *)
Definition compute_reward (capturedTargets capturedMobiles : Z) : Z :=
  capturedTargets + 2 * capturedMobiles.

(** [episode_end] *)
Definition episode_end (current_nb_targets_alive : Z) : bool :=
  if current_nb_targets_alive =? 0 then true else false.

(** The two spaces declared by [__init__].  The constructors of gym's spaces
    are taken to accept their arguments. *)
Definition declared_action_space (nb_agents : Z) : Space :=
  Dict ((fun i => (agent_key i, Discrete NB_ACTIONS)) <$> range nb_agents).

(** [self.observation_space] *)
Definition declared_observation_space (grid_size nb_agents : Z) : Space :=
  Dict [("map", Box 0 2 grid_size grid_size);
        ("agent_position",
         Dict ((fun i => (agent_key i,
                          Tuple [Discrete (grid_size - 1); Discrete (grid_size - 1)]))
                 <$> range nb_agents))].

(** What the constructors of the declared spaces raise, if they do.
    [Discrete(NB_ACTIONS)] is always built.  [Box(..., shape=(grid_size,
    grid_size))] comes next and allocates its bounds with numpy, which refuses
    a negative dimension with a [ValueError]; then [Discrete(grid_size - 1)],
    built once there is an agent, asserts that its size is not negative. *)
Definition declared_spaces_error (grid_size nb_agents : Z) : option Exn :=
  if grid_size <? 0 then Some (Raise ValueError [grid_size])
  else if (0 <? nb_agents) && (grid_size - 1 <? 0) then
    Some (Raise AssertionError [grid_size - 1])
  else None.

(** [__init__] *)
Definition TeamCatcher_init (grid_size nb_agents nb_targets nb_mobiles : Z)
    (sd : option Z) : M Process TeamCatcher :=
  if (grid_size - 1) ^ 2 <? nb_agents + nb_targets then
    let population := nb_agents + nb_targets + nb_mobiles in
    let maximum_population := (grid_size - 1) ^ 2 in
    raise (Raise ValueError [population; maximum_population])
  else
    match declared_spaces_error grid_size nb_agents with
    | Some e => raise e
    | None =>
        w <- World_new W grid_size nb_agents nb_targets nb_mobiles sd ;;
        seed sd ;;
        ret {| grid_size := grid_size;
               action_space := declared_action_space nb_agents;
               observation_space := declared_observation_space grid_size nb_agents;
               world := w;
               nb_targets_alive := World_nb_targets_alive W w;
               obs := None;
               viewer := None;
               nb_step := None |}
    end.

(** [step] *)
Definition step (action : Action)
  : M (Process * TeamCatcher) (Observation * Z * bool * StepInfo) :=
  on_world (World_update W action) ;;
  self <- get_self ;;
  let o := World_get_state W (world self) in
  modify_self (set_obs (Some o)) ;;
  let reward :=
    compute_reward (World_capturedTargets W (world self))
                   (World_capturedMobiles W (world self)) in
  let alive := World_nb_targets_alive W (world self) in
  modify_self (set_nb_targets_alive alive) ;;
  let done := episode_end alive in
  match nb_step self with
  | None => raise (Raise TypeError [])
  | Some n =>
      modify_self (set_nb_step (Some (n + 1))) ;;
      let info := {| info_step := n + 1; info_target_alive := alive |} in
      ret (o, reward, done, info)
  end.

(** [reset] *)
Definition reset : M (Process * TeamCatcher) Observation :=
  on_world (World_reset W) ;;
  self <- get_self ;;
  let o := World_get_state W (world self) in
  modify_self (set_obs (Some o)) ;;
  modify_self (set_nb_step (Some 0)) ;;
  modify_self (set_nb_targets_alive (World_nb_targets_alive W (world self))) ;;
  ret o.

(** [close]: a viewer object is always truthy, so [if self.viewer] tests that
    it is not [None]. *)
Definition close : M (Process * TeamCatcher) unit :=
  self <- get_self ;;
  match viewer self with
  | Some v =>
      on_process (viewer_close v) ;;
      modify_self (set_viewer None)
  | None => ret tt
  end.

(** The calls a caller makes on one environment, one [step] per action
    mapping; a call that raises is followed by the next one, as when the caller
    catches the exception.  Each call is listed with the state it leaves. *)
Fixpoint steps (actions : list Action) (s : Process * TeamCatcher)
  : list ((Process * TeamCatcher) * Outcome (Observation * Z * bool * StepInfo)) :=
  match actions with
  | [] => []
  | a :: rest => step a s :: steps rest (step a s).1
  end.

(** The count of live targets the environment shows before the first call and
    after each one *)
Definition alive_history (actions : list Action) (s : Process * TeamCatcher) : list Z :=
  nb_targets_alive s.2 :: ((fun c => nb_targets_alive c.1.2) <$> steps actions s).

(** The number of calls that returned *)
Definition count_returned {A B} (l : list (A * Outcome B)) : Z :=
  Z.of_nat (length (filter (fun x => returned x.2 = true) l)).

(** A whole run in a process: construction, [reset], then the steps.  The run
    keeps what the caller sees: the observation of [reset], and for each step
    what it returned together with the capture counts of the engine. *)
Inductive Run :=
| NotConstructed (e : Exn)
| NotReset (e : Exn)
| Ran (o : Observation)
      (calls : list (Outcome (Observation * Z * bool * StepInfo) * (Z * Z))).

Definition run (grid_size nb_agents nb_targets nb_mobiles : Z) (sd : option Z)
    (actions : list Action) (p : Process) : Process * Run :=
  match TeamCatcher_init grid_size nb_agents nb_targets nb_mobiles sd p with
  | (p1, Raised e) => (p1, NotConstructed e)
  | (p1, Returned self) =>
      match reset (p1, self) with
      | (s2, Raised e) => (s2.1, NotReset e)
      | (s2, Returned o) =>
          let calls := steps actions s2 in
          (match last calls with Some c => c.1.1 | None => s2.1 end,
           Ran o ((fun c => (c.2, (World_capturedTargets W (world c.1.2),
                                   World_capturedMobiles W (world c.1.2)))) <$> calls))
      end
  end.

End Adapter.

(** ** The engine: class [World] of [.game]

    The module [.game] is not among the sources.  The engine is written from
    the design document: its data model, the placement initializer, the action
    resolver, the mobile motion policy, the capture detector and the state
    exporter.  Where the document leaves a choice open it is said at the
    definition. *)

Module Engine.

(** Modelled from the spec: the enumeration [MapElement] of [.game], absent
    from the sources; the map codes are empty=0, agent=1, target=2, mobile=3. *)
Inductive MapElement := empty | agent | target | mobile.

(** Modelled from the spec: the value of a [MapElement] of [.game]. *)
Definition MapElement_value (e : MapElement) : Z :=
  match e with empty => 0 | agent => 1 | target => 2 | mobile => 3 end.

(** Modelled from the spec: the enumeration [Actions] of [.game], absent
    from the sources. *)
Inductive Actions := NOOP | UP | DOWN | LEFT | RIGHT.

(** Modelled from the spec: the action codes 0:NOOP, 1:UP, 2:DOWN, 3:LEFT,
    4:RIGHT of [.game]; any other code is not an action. *)
Definition Actions_of_code (c : Z) : option Actions :=
  if c =? 0 then Some NOOP
  else if c =? 1 then Some UP
  else if c =? 2 then Some DOWN
  else if c =? 3 then Some LEFT
  else if c =? 4 then Some RIGHT
  else None.

(** Modelled from the spec: a position [(x, y)] of the grid of [World]. *)
Definition Cell : Type := Z * Z.

(** Modelled from the spec: the unit displacement of an action in [World].
    The document fixes LEFT as [x - 1] (an agent at [(0, y)] cannot go left); UP
    is taken as [y - 1]. *)
Definition displacement (a : Actions) : Cell :=
  match a with
  | NOOP => (0, 0)
  | UP => (0, -1)
  | DOWN => (0, 1)
  | LEFT => (-1, 0)
  | RIGHT => (1, 0)
  end.

(** Modelled from the spec: a target or a mobile of [World], a position and
    an alive flag. *)
Record Entity := { position : Cell; alive : bool }.

(** Modelled from the spec: the state of [World], absent from the sources:
    the configuration with its optional seed, the generator the World owns (how
    it was last seeded and the number of words drawn since), the agents in
    ascending id, the targets, the mobiles, the step counter and the capture
    counts of the last step.  The occupancy of the grid is read off the
    positions. *)
Record World := {
  w_size : Z;
  w_nb_agents : Z;
  w_nb_targets : Z;
  w_nb_mobiles : Z;
  w_seed : option Z;
  w_gen : Seeding;
  w_rng : nat;
  agents : list Cell;
  targets : list Entity;
  mobiles : list Entity;
  w_step : Z;
  capturedTargets : Z;
  capturedMobiles : Z
}.

(** Modelled from the spec: a seeding of the generator of a [World]: the
    stream starts over. *)
Definition set_gen (g : Seeding) (w : World) : World :=
  {| w_size := w_size w; w_nb_agents := w_nb_agents w; w_nb_targets := w_nb_targets w;
     w_nb_mobiles := w_nb_mobiles w; w_seed := w_seed w; w_gen := g; w_rng := 0;
     agents := agents w; targets := targets w; mobiles := mobiles w;
     w_step := w_step w; capturedTargets := capturedTargets w;
     capturedMobiles := capturedMobiles w |}.

(** Modelled from the spec: what seeds the generator of a [World], at
    construction and at every reset.  An integer seed fixes the stream.  The
    seed is optional: without one the generator is seeded from fresh entropy of
    the operating system, read anew at each seeding, as numpy and Python do for
    the seed [None]. *)
Definition seed_generator (seed : option Z) : M Process Seeding :=
  fun p =>
    match seed with
    | Some s => (p, Returned (FromSeed s))
    | None =>
        ({| np_random := np_random p;
            entropy_reads := S (entropy_reads p);
            display := display p |}, Returned (FromEntropy (entropy_reads p)))
    end.

(** Modelled from the spec: the words drawn so far from the generator of a
    [World]. *)
Definition set_rng (n : nat) (w : World) : World :=
  {| w_size := w_size w; w_nb_agents := w_nb_agents w; w_nb_targets := w_nb_targets w;
     w_nb_mobiles := w_nb_mobiles w; w_seed := w_seed w; w_gen := w_gen w; w_rng := n;
     agents := agents w; targets := targets w; mobiles := mobiles w;
     w_step := w_step w; capturedTargets := capturedTargets w;
     capturedMobiles := capturedMobiles w |}.

(** Modelled from the spec: assignment to the agent positions of a [World]. *)
Definition set_agents (l : list Cell) (w : World) : World :=
  {| w_size := w_size w; w_nb_agents := w_nb_agents w; w_nb_targets := w_nb_targets w;
     w_nb_mobiles := w_nb_mobiles w; w_seed := w_seed w; w_gen := w_gen w; w_rng := w_rng w;
     agents := l; targets := targets w; mobiles := mobiles w;
     w_step := w_step w; capturedTargets := capturedTargets w;
     capturedMobiles := capturedMobiles w |}.

(** Modelled from the spec: assignment to the mobiles of a [World]. *)
Definition set_mobiles (l : list Entity) (w : World) : World :=
  {| w_size := w_size w; w_nb_agents := w_nb_agents w; w_nb_targets := w_nb_targets w;
     w_nb_mobiles := w_nb_mobiles w; w_seed := w_seed w; w_gen := w_gen w; w_rng := w_rng w;
     agents := agents w; targets := targets w; mobiles := l;
     w_step := w_step w; capturedTargets := capturedTargets w;
     capturedMobiles := capturedMobiles w |}.

(** Modelled from the spec: the number of entities of a list that are alive. *)
Definition count_alive (l : list Entity) : Z :=
  Z.of_nat (length (filter (fun e => alive e = true) l)).

(** Modelled from the spec: the property [nb_targets_alive] of [World], the
    current count of live targets ([targetsAlive]). *)
Definition nb_targets_alive (w : World) : Z := count_alive (targets w).

(** Modelled from the spec: the cells of the live entities of a list; a
    captured entity is off the grid. *)
Definition live_cells (l : list Entity) : list Cell :=
  position <$> filter (fun e => alive e = true) l.

(** Modelled from the spec: the grid occupancy of [World], the cells held by
    an agent, a live target or a live mobile. *)
Definition occupied_cells (w : World) : list Cell :=
  agents w ++ live_cells (targets w) ++ live_cells (mobiles w).

(** Modelled from the spec: whether a cell of the grid of [World] is
    occupied. *)
Definition occupied (w : World) (c : Cell) : bool :=
  bool_decide (c ∈ occupied_cells w).

(** Modelled from the spec: whether a cell lies within [0, N-1] on both
    axes of the grid of [World]. *)
Definition in_bounds (n : Z) (c : Cell) : bool :=
  (0 <=? c.1) && (c.1 <? n) && (0 <=? c.2) && (c.2 <? n).

(** Modelled from the spec: the 4-neighbourhood used by [World]: up, down,
    left, right, no diagonal. *)
Definition neighbours (c : Cell) : list Cell :=
  [(c.1, c.2 - 1); (c.1, c.2 + 1); (c.1 - 1, c.2); (c.1 + 1, c.2)].

(** Modelled from the spec: the positions of all entities of [World], live
    or captured. *)
Definition all_positions (w : World) : list Cell :=
  agents w ++ (position <$> targets w) ++ (position <$> mobiles w).

(** Modelled from the spec: the invariant the document states for [World]:
    no two live entities on one cell, every position within [0, N-1] on both
    axes. *)
Definition grid_invariant (w : World) : Prop :=
  NoDup (occupied_cells w) ∧
  Forall (fun c => 0 <= c.1 <= w_size w - 1 ∧ 0 <= c.2 <= w_size w - 1) (all_positions w).

(** Modelled from the spec: what the action resolver, the mobile motion
    policy and the capture detector of [World] keep of that invariant: the live
    targets and mobiles are on cells of their own, no agent is on the cell of
    one of them, and every position is within bounds.  Two agents on one cell
    are not excluded. *)
Definition separation_invariant (w : World) : Prop :=
  NoDup (live_cells (targets w) ++ live_cells (mobiles w)) ∧
  (∀ c, c ∈ agents w -> c ∉ live_cells (targets w) ++ live_cells (mobiles w)) ∧
  Forall (fun c => 0 <= c.1 <= w_size w - 1 ∧ 0 <= c.2 <= w_size w - 1) (all_positions w).

Section Generator.

(** The generator owned by a World: [words g i] is the [i]-th word drawn after
    the seeding [g], by an integer seed or by the entropy read then.  Every
    generator is such a function, and the engine is modelled for all of
    them. *)
Variable words : Seeding -> nat -> nat.

(** Modelled from the spec: a draw below [n] from the generator owned by
    the [World]. *)
Definition draw (n : nat) (w : World) : nat * World :=
  (words (w_gen w) (w_rng w) `mod` n, set_rng (S (w_rng w)) w)%nat.

(** *** Random placement initializer *)

(** Modelled from the spec: the cells of the N by N grid of [World], row by
    row. *)
Definition all_cells (n : Z) : list Cell :=
  x ← range n; (fun y => (x, y)) <$> range n.

(** Modelled from the spec: the sampling of the initializer of [World], [k]
    cells drawn without replacement, each draw picking one of the cells left.
    Drawing from an empty pool is an [IndexError]: the document does not name
    that case, which cannot arise on a grid of size at least one that passes the
    capacity check. *)
Fixpoint sample (k : nat) (pool : list Cell) : M World (list Cell) :=
  match k with
  | O => ret []
  | S k' =>
      match pool with
      | [] => raise (Raise IndexError [])
      | c0 :: _ =>
          fun w =>
            let (i, w1) := draw (length pool) w in
            (cs <- sample k' (delete i pool) ;;
             ret (nth i pool c0 :: cs)) w1
      end
  end.

(** Modelled from the spec: the random placement initializer of [World]: the
    capacity check before any sampling, then the draw, the cells going to the
    agents first, the targets next and the mobiles last; all entities alive,
    the step counter and the capture counts at 0. *)
Definition initializer : M World unit :=
  w <- get ;;
  let population := w_nb_agents w + w_nb_targets w + w_nb_mobiles w in
  let capacity := (w_size w - 1) ^ 2 in
  if capacity <? population then
    raise (Raise ConfigurationError [population; capacity])
  else
    let na := Z.to_nat (w_nb_agents w) in
    let nt := Z.to_nat (w_nb_targets w) in
    let nm := Z.to_nat (w_nb_mobiles w) in
    cells <- sample (na + nt + nm) (all_cells (w_size w)) ;;
    w <- get ;;
    put {| w_size := w_size w; w_nb_agents := w_nb_agents w;
           w_nb_targets := w_nb_targets w; w_nb_mobiles := w_nb_mobiles w;
           w_seed := w_seed w; w_gen := w_gen w; w_rng := w_rng w;
           agents := take na cells;
           targets := (fun c => {| position := c; alive := true |})
                        <$> take nt (drop na cells);
           mobiles := (fun c => {| position := c; alive := true |})
                        <$> take nm (drop (na + nt) cells);
           w_step := 0; capturedTargets := 0; capturedMobiles := 0 |}.

(** Modelled from the spec: the constructor
    [World(size, nb_agents, nb_targets, nb_mobiles, seed)]: the generator is
    seeded and the initializer runs; when it fails no World is made.  Of the
    process only the entropy source is reached, and only without a seed. *)
Definition new (size nb_agents nb_targets nb_mobiles : Z) (seed : option Z)
  : M Process World :=
  g <- seed_generator seed ;;
  fun p =>
    match initializer {| w_size := size; w_nb_agents := nb_agents;
                         w_nb_targets := nb_targets; w_nb_mobiles := nb_mobiles;
                         w_seed := seed; w_gen := g; w_rng := 0;
                         agents := []; targets := []; mobiles := [];
                         w_step := 0; capturedTargets := 0; capturedMobiles := 0 |} with
    | (w, Returned _) => (p, Returned w)
    | (_, Raised e) => (p, Raised e)
    end.

(** Modelled from the spec: [World.reset]: the generator is seeded again, as
    at construction, and the World rebuilt by the initializer; a failed reset
    leaves the World as it was. *)
Definition reset : M (Process * World) unit :=
  fun s =>
    match seed_generator (w_seed s.2) s.1 with
    | (p, Raised e) => ((p, s.2), Raised e)
    | (p, Returned g) =>
        match initializer (set_gen g s.2) with
        | (w', Returned _) => ((p, w'), Returned tt)
        | (_, Raised e) => ((p, s.2), Raised e)
        end
    end.

(** *** Action resolver *)

(** Modelled from the spec: the candidate cell of the action resolver of
    [World]: the displaced position, or the position itself when the displaced
    one is off the grid. *)
Definition candidate (n : Z) (p : Cell) (a : Actions) : Cell :=
  let c := (p.1 + (displacement a).1, p.2 + (displacement a).2) in
  if in_bounds n c then c else p.

(** Modelled from the spec: the cells that reject the move of agent number
    [i] (counted from 0) of [World]: those of the agents already committed this
    step, which are the agents before it in the order, where they stand now,
    and those of the live targets and mobiles.  The cell of an agent that is
    still to take its turn rejects nothing. *)
Definition blocking_cells (i : nat) (w : World) : list Cell :=
  take i (agents w) ++ live_cells (targets w) ++ live_cells (mobiles w).

(** Modelled from the spec: one turn of the action resolver of [World].
    Agent number [i] commits its candidate move only if the destination is not
    already occupied by an agent already committed this step or by a target or
    mobile; otherwise it does not move this step. *)
Definition move_agent (i : nat) (a : Actions) (w : World) : World :=
  match agents w !! i with
  | Some p =>
      let c := candidate (w_size w) p a in
      if bool_decide (c ∈ blocking_cells i w) then w
      else set_agents (<[i := c]> (agents w)) w
  | None => w
  end.

(** Modelled from the spec: the action resolver of [World], the agents
    taking their turn in ascending id. *)
Fixpoint resolve (i : nat) (acts : list Actions) (w : World) : World :=
  match acts with
  | [] => w
  | a :: rest => resolve (S i) rest (move_agent i a w)
  end.

(** *** Mobile motion policy *)

(** Modelled from the spec: the mobile motion policy of [World] for mobile
    number [j]: when alive, it draws one of its four neighbours that are in
    bounds and not occupied at its turn, and stays when there is none. *)
Definition move_mobile (j : nat) (w : World) : World :=
  match mobiles w !! j with
  | Some e =>
      if alive e then
        let free := filter (fun c => in_bounds (w_size w) c = true ∧ occupied w c = false)
                           (neighbours (position e)) in
        match free with
        | [] => w
        | c0 :: _ =>
            let (k, w1) := draw (length free) w in
            set_mobiles (<[j := {| position := nth k free c0; alive := true |}]> (mobiles w1)) w1
        end
      else w
  | None => w
  end.

(** Modelled from the spec: the mobile motion policy of [World], each mobile
    once per step, one after the other. *)
Definition move_mobiles (w : World) : World :=
  foldl (fun w j => move_mobile j w) w (seq 0 (length (mobiles w))).

(** *** Capture detector *)

(** Modelled from the spec: the number of agents in the 4-neighbourhood of
    a cell, as the capture detector of [World] counts them. *)
Definition adjacent_agents (ags : list Cell) (c : Cell) : nat :=
  length (filter (fun a => a ∈ neighbours c) ags).

(** Modelled from the spec: the capture condition of [World]: a live entity
    with at least two agents adjacent. *)
Definition captured (ags : list Cell) (e : Entity) : bool :=
  alive e && (2 <=? adjacent_agents ags (position e))%nat.

(** Modelled from the spec: a capture in [World] clears the alive flag. *)
Definition capture (ags : list Cell) (e : Entity) : Entity :=
  if captured ags e then {| position := position e; alive := false |} else e.

(** Modelled from the spec: the per-step capture count of [World] for one
    kind of entity. *)
Definition count_captured (ags : list Cell) (l : list Entity) : Z :=
  Z.of_nat (length (filter (fun e => captured ags e = true) l)).

(** Modelled from the spec: the capture detector of [World]: all entities
    are checked against the agents as they stand after the moves, the two
    capture counts are set, and the step counter advances. *)
Definition detect (w : World) : World :=
  {| w_size := w_size w; w_nb_agents := w_nb_agents w; w_nb_targets := w_nb_targets w;
     w_nb_mobiles := w_nb_mobiles w; w_seed := w_seed w; w_gen := w_gen w; w_rng := w_rng w;
     agents := agents w;
     targets := capture (agents w) <$> targets w;
     mobiles := capture (agents w) <$> mobiles w;
     w_step := w_step w + 1;
     capturedTargets := count_captured (agents w) (targets w);
     capturedMobiles := count_captured (agents w) (mobiles w) |}.

(** *** update *)

(** Modelled from the spec: the reading of an action mapping by [World],
    in ascending agent id: a missing key is a ConfigurationError, a code outside
    the five actions a ValueError. *)
Fixpoint read_actions (keys : list string) (actions : Action) : Outcome (list Actions) :=
  match keys with
  | [] => Returned []
  | k :: rest =>
      match dict_get k actions with
      | None => Raised (Raise ConfigurationError [])
      | Some c =>
          match Actions_of_code c with
          | None => Raised (Raise ValueError [c])
          | Some a =>
              match read_actions rest actions with
              | Returned l => Returned (a :: l)
              | Raised e => Raised e
              end
          end
      end
  end.

(** Modelled from the spec: the validation of an action mapping by [World]:
    it holds exactly one valid action per agent, no key missing and none
    extra. *)
Definition validate (w : World) (actions : Action) : Outcome (list Actions) :=
  if (length actions =? length (agents w))%nat then
    read_actions (agent_key <$> range (Z.of_nat (length (agents w)))) actions
  else Raised (Raise ConfigurationError []).

(** Modelled from the spec: [World.update(actions)]: nothing is changed when
    the mapping is rejected; otherwise the action resolver, the mobile motion
    policy and the capture detector run in that order, and the capture counts
    are returned. *)
Definition update (actions : Action) : M World (Z * Z) :=
  fun w =>
    match validate w actions with
    | Raised e => (w, Raised e)
    | Returned acts =>
        let w' := detect (move_mobiles (resolve 0 acts w)) in
        (w', Returned (capturedTargets w', capturedMobiles w'))
    end.


(** *** State exporter *)

(** Modelled from the spec: the tag of the occupant of a cell in [World]. *)
Definition occupant (w : World) (c : Cell) : MapElement :=
  if bool_decide (c ∈ agents w) then agent
  else if bool_decide (c ∈ live_cells (targets w)) then target
  else if bool_decide (c ∈ live_cells (mobiles w)) then mobile
  else empty.

(** Modelled from the spec: the property [get_state] of [World], the state
    exporter: the map of occupant tags, indexed [map[x][y]], and the position
    of each agent under ["agent_<i>"]. *)
Definition get_state (w : World) : Observation :=
  {| map := (fun x => (fun y => MapElement_value (occupant w (x, y))) <$> range (w_size w))
              <$> range (w_size w);
     agent_position :=
       imap (fun i p => (agent_key (Z.of_nat i), p)) (agents w) |}.

(** Modelled from the spec: a method of [World] that does not seed, as the
    adapter calls it: it leaves the process alone and the adapter drops what it
    returns. *)
Definition lift {A} (m : M World A) : M (Process * World) unit :=
  fun s =>
    match m s.2 with
    | (w, Returned _) => ((s.1, w), Returned tt)
    | (w, Raised e) => ((s.1, w), Raised e)
    end.

(** Modelled from the spec: the class [World] of [.game] behind the
    interface the adapter uses. *)
Definition game : WorldClass :=
  {| World_t := World;
     World_new := new;
     World_update := fun actions => lift (update actions);
     World_reset := reset;
     World_get_state := get_state;
     World_capturedTargets := capturedTargets;
     World_capturedMobiles := capturedMobiles;
     World_nb_targets_alive := nb_targets_alive |}.

End Generator.

End Engine.

(** ** The shape the specification gives an observation

    A [grid_size] by [grid_size] map over the codes 0 to 3, and a position
    with both coordinates in [0, grid_size - 1] under each key ["agent_<i>"]. *)
Definition claimed_shape (grid_size nb_agents : Z) (o : Observation) : bool :=
  has_shape grid_size grid_size (map o) &&
  forallb (forallb (fun x => (0 <=? x) && (x <=? 3))) (map o) &&
  (length (agent_position o) =? Z.to_nat nb_agents)%nat &&
  forallb (fun i =>
             match dict_get (agent_key i) (agent_position o) with
             | Some (x, y) =>
                 (0 <=? x) && (x <=? grid_size - 1) && (0 <=? y) && (y <=? grid_size - 1)
             | None => false
             end) (range nb_agents).

(** ** A process, three generators and a viewer to run the definitions on *)

Definition fresh_process : Process :=
  {| np_random := {| seeding := FromEntropy 0; drawn := 0 |};
     entropy_reads := 1;
     display := [] |}.

Definition counting_words : Seeding -> nat -> nat :=
  fun _ i => (7 * i + 3)%nat.

Definition zero_words : Seeding -> nat -> nat :=
  fun _ _ => 0%nat.


(** A scripted episode on a 4 by 4 grid with two agents and one target, the
    generator yielding 0 at every draw: the agents are placed on (0,0) and
    (0,1), the target on (0,2).  The first agent walks to (1,2) while the second
    one waits beside the target. *)
Definition demo_game : WorldClass := Engine.game zero_words.

Definition demo_world : Engine.World :=
  {| Engine.w_size := 4; Engine.w_nb_agents := 2; Engine.w_nb_targets := 1;
     Engine.w_nb_mobiles := 0; Engine.w_seed := Some 42;
     Engine.w_gen := FromSeed 42; Engine.w_rng := 3;
     Engine.agents := [(0, 0); (0, 1)];
     Engine.targets := [{| Engine.position := (0, 2); Engine.alive := true |}];
     Engine.mobiles := [];
     Engine.w_step := 0; Engine.capturedTargets := 0; Engine.capturedMobiles := 0 |}.

Definition demo_env : TeamCatcher demo_game :=
  Build_TeamCatcher demo_game
    4 (declared_action_space 2) (declared_observation_space 4 2)
    demo_world 1 None None None.

Definition scripted_actions : list Action :=
  [ [("agent_1", 4); ("agent_2", 0)];
    [("agent_1", 2); ("agent_2", 0)];
    [("agent_1", 2); ("agent_2", 0)] ].

Definition demo_start : Process * TeamCatcher demo_game :=
  (reset demo_game (fresh_process, demo_env)).1.

(** The state two steps into the script, one step before the capture *)
Definition demo_near : Process * TeamCatcher demo_game :=
  (step demo_game [("agent_1", 2); ("agent_2", 0)]
     (step demo_game [("agent_1", 4); ("agent_2", 0)] demo_start).1).1.

(** The environment shows the count of live targets of its engine. *)
Definition count_agrees (words : Seeding -> nat -> nat)
    (s : Process * TeamCatcher (Engine.game words)) : Prop :=
  nb_targets_alive (Engine.game words) s.2
  = Engine.nb_targets_alive (world (Engine.game words) s.2).


(** Two observations of the engine: a 3 by 3 grid with an agent, a target and
    a mobile on its first column, and a 2 by 2 grid with its agent in the far
    corner. *)
Definition mobile_observation : Observation :=
  {| map := [[1; 2; 3]; [0; 0; 0]; [0; 0; 0]];
     agent_position := [("agent_1", (0, 0))] |}.

Definition corner_observation : Observation :=
  {| map := [[0; 0]; [0; 1]];
     agent_position := [("agent_1", (1, 1))] |}.

(** ** The adapter on its own, and its spaces as values *)

(** An engine that holds nothing and never raises, to run the adapter alone *)
Definition idle_game : WorldClass :=
  {| World_t := unit;
     World_new := fun _ _ _ _ _ => ret tt;
     World_update := fun _ => ret tt;
     World_reset := ret tt;
     World_get_state := fun _ => {| map := []; agent_position := [] |};
     World_capturedTargets := fun _ => 0;
     World_capturedMobiles := fun _ => 0;
     World_nb_targets_alive := fun _ => 0 |}.

(** An action mapping as a value of gym: a dict of integers *)
Definition value_of_action (a : Action) : Value :=
  VDict ((fun kv => (kv.1, VInt kv.2)) <$> a).

(** The entries of a Dict space, [space.spaces] *)
Definition spaces (s : Space) : list (string * Space) :=
  match s with
  | Dict d => d
  | _ => []
  end.

(** ** Rendering: [TeamCatcher.render] *)

(** A pixel of a [uint8] RGB array, and an image as rows of pixels *)
Definition Color : Type := Byte.byte * Byte.byte * Byte.byte.

Abbreviation Image := (list (list Color)).

Definition black : Color := (Byte.x00, Byte.x00, Byte.x00).

(** The process as rendering sees it: besides what the other methods reach,
    the number of viewers constructed so far, which names the next one, and
    the images shown, each with the viewer that shows it. *)
Record Screen := {
  process : Process;
  viewers_made : nat;
  shown : list (nat * Image)
}.

(** What [render] returns: the image in mode ["rgb_array"], [viewer.isopen]
    otherwise. *)
Inductive Rendered :=
| RgbArray (image : Image)
| IsOpen (b : bool).

(** [map[i][j]] of a two-dimensional array *)
Definition at2 {A} (a : list (list A)) (i j : nat) : option A :=
  a !! i ≫= fun row => row !! j.

Section Rendering.

Variable W : WorldClass.

(** The value of a member of [MapElement] and the colour [ElementsColors]
    gives it in [.game], and PIL's [Image.fromarray(image).resize((width,
    height), Image.NEAREST)] read back as an array: the three are outside the
    sources, and rendering is embedded for all of them. *)
Variable element_value : Engine.MapElement -> Z.
Variable element_color : Engine.MapElement -> Color.
Variable pil_resize : Image -> Z -> Z -> Outcome Image.

(** [np.zeros((n, n, 3), dtype=np.uint8)] *)
Definition zeros (n : Z) : Image :=
  replicate (Z.to_nat n) (replicate (Z.to_nat n) black).

(** [image[m == MapElement.e] = ElementsColors.e.value], for [m] of the shape
    of [image] *)
Definition paint (m : list (list Z)) (image : Image) (e : Engine.MapElement) : Image :=
  zip_with (zip_with (fun v px => if v =? element_value e then element_color e else px))
           m image.

(** The four assignments of [render], in their order *)
Definition painted (n : Z) (m : list (list Z)) : Image :=
  foldl (paint m) (zeros n) [Engine.empty; Engine.agent; Engine.target; Engine.mobile].

(** The image [render] computes: a negative grid size is refused by
    [np.zeros], a missing observation cannot be subscripted, a map of another
    shape than the grid cannot index the image. *)
Definition render_image (self : TeamCatcher W) (fig_size : Z) : Outcome Image :=
  if grid_size W self <? 0 then Raised (Raise ValueError [grid_size W self])
  else
    match obs W self with
    | None => Raised (Raise TypeError [])
    | Some o =>
        if has_shape (grid_size W self) (grid_size W self) (map o) then
          pil_resize (painted (grid_size W self) (map o))
                     (grid_size W self * fig_size) (grid_size W self * fig_size)
        else Raised (Raise IndexError [])
    end.

(** gym's rendering, outside the sources as well.  What the statement
    [from gym.envs.classic_control import rendering] raises, if it does (it
    needs pyglet and a display), and what the constructor [SimpleImageViewer()]
    raises, if it does: both are properties of the installation.  What [imshow]
    raises for an image, if it does.  And [viewer.isopen] as read after
    [imshow], on the screen as it then is: [False] once the user has closed the
    window.  Rendering is embedded for all of them. *)
Variable import_error : option Exn.
Variable viewer_error : option Exn.
Variable imshow_error : Image -> option Exn.
Variable isopen : Screen -> nat -> bool.

(** [self.viewer.imshow(image)] followed by [return self.viewer.isopen], for
    the viewer [v] the environment holds *)
Definition show (v : nat) (image : Image) : M (Screen * TeamCatcher W) Rendered :=
  fun s =>
    match imshow_error image with
    | Some e => (s, Raised e)
    | None =>
        let screen := {| process := process s.1;
                         viewers_made := viewers_made s.1;
                         shown := shown s.1 ++ [(v, image)] |} in
        ((screen, s.2), Returned (IsOpen (isopen screen v)))
    end.

(** [render(mode, close, fig_size)]; the argument [close] is not read.  In a
    mode other than ["rgb_array"] gym's rendering is imported, a viewer is
    constructed and assigned when the environment holds none, the image is
    shown and [isopen] of the viewer is returned.  When [imshow] raises, a
    viewer constructed by the call stays assigned. *)
Definition render (mode : string) (fig_size : Z) : M (Screen * TeamCatcher W) Rendered :=
  fun s =>
    match render_image s.2 fig_size with
    | Raised e => (s, Raised e)
    | Returned image =>
        if String.eqb mode "rgb_array" then (s, Returned (RgbArray image))
        else
          match import_error with
          | Some e => (s, Raised e)
          | None =>
              match viewer W s.2 with
              | Some v => show v image s
              | None =>
                  match viewer_error with
                  | Some e => (s, Raised e)
                  | None =>
                      show (viewers_made s.1) image
                        ({| process := process s.1;
                            viewers_made := S (viewers_made s.1);
                            shown := shown s.1 |},
                         set_viewer W (Some (viewers_made s.1)) s.2)
                  end
              end
          end
    end.

(** A method that does not render, run in the process of the screen *)
Definition on_screen {A} (m : M (Process * TeamCatcher W) A) : M (Screen * TeamCatcher W) A :=
  fun s =>
    match m (process s.1, s.2) with
    | ((p, self), r) =>
        (({| process := p; viewers_made := viewers_made s.1; shown := shown s.1 |}, self), r)
    end.

(** The colour [render] gives a map value: the assignments run in the order
    empty, agent, target, mobile, a later one painting over an earlier one, and
    a value that is no element stays black. *)
Definition pixel_color (v : Z) : Color :=
  if v =? element_value Engine.mobile then element_color Engine.mobile
  else if v =? element_value Engine.target then element_color Engine.target
  else if v =? element_value Engine.agent then element_color Engine.agent
  else if v =? element_value Engine.empty then element_color Engine.empty
  else black.

End Rendering.

(** A palette to run [render] with *)
Definition demo_color (e : Engine.MapElement) : Color :=
  match e with
  | Engine.empty => (Byte.xff, Byte.xff, Byte.xff)
  | Engine.agent => (Byte.x00, Byte.x00, Byte.xff)
  | Engine.target => (Byte.xff, Byte.x00, Byte.x00)
  | Engine.mobile => (Byte.x00, Byte.xff, Byte.x00)
  end.

(** A resize to run [render] with: nearest-neighbour sampling at the pixel
    centres, an empty target size being refused *)
Definition nearest (image : Image) (width height : Z) : Outcome Image :=
  if (0 <? width) && (0 <? height) then
    Returned
      ((fun r => (fun c => default black
                     (at2 image
                          (Z.to_nat (((2 * Z.of_nat r + 1) * Z.of_nat (length image))
                                     `div` (2 * height)))
                          (Z.to_nat (((2 * Z.of_nat c + 1)
                                      * Z.of_nat (length (default [] (head image))))
                                     `div` (2 * width)))))
                   <$> seq 0 (Z.to_nat width))
         <$> seq 0 (Z.to_nat height))
  else Raised (Raise ValueError [width; height]).

(** A screen on which nothing was shown yet *)
Definition demo_screen : Screen :=
  {| process := fresh_process; viewers_made := 0; shown := [] |}.

(** A display on which [imshow] raises for no image and every window stays
    open *)
Definition imshow_works (image : Image) : option Exn := None.

Definition stays_open (screen : Screen) (v : nat) : bool := true.

(** * Properties of the adapter, for every engine behind [WorldClass] *)

Section AdapterFacts.

Variable W : WorldClass.

Implicit Types (s : Process * TeamCatcher W) (action : Action).

(** [step], case by case: the engine raises; the counter is [None]; the call
    returns. *)
Lemma step_cases action s :
  step W action s =
  match World_update W action (s.1, world W s.2) with
  | ((p, w), Raised e) => ((p, set_world W w s.2), Raised e)
  | ((p, w), Returned _) =>
      let o := World_get_state W w in
      let alive := World_nb_targets_alive W w in
      let self := set_nb_targets_alive W alive (set_obs W (Some o) (set_world W w s.2)) in
      match nb_step W s.2 with
      | None => ((p, self), Raised (Raise TypeError []))
      | Some n =>
          ((p, set_nb_step W (Some (n + 1)) self),
           Returned (o,
                     compute_reward (World_capturedTargets W w) (World_capturedMobiles W w),
                     episode_end alive,
                     {| info_step := n + 1; info_target_alive := alive |}))
      end
  end.
Proof.
  unfold step, bind, on_world, get_self, modify_self, ret, raise.
  destruct (World_update W action (s.1, world W s.2)) as [[p w] [e|[]]]; simpl; [done|].
  destruct (nb_step W s.2); done.
Qed.

Lemma reset_cases s :
  reset W s =
  match World_reset W (s.1, world W s.2) with
  | ((p, w), Raised e) => ((p, set_world W w s.2), Raised e)
  | ((p, w), Returned _) =>
      let o := World_get_state W w in
      ((p, set_nb_targets_alive W (World_nb_targets_alive W w)
             (set_nb_step W (Some 0) (set_obs W (Some o) (set_world W w s.2)))),
       Returned o)
  end.
Proof.
  unfold reset, bind, on_world, get_self, modify_self, ret.
  destruct (World_reset W (s.1, world W s.2)) as [[p w] [e|[]]]; done.
Qed.

(** A call of [step] that returns leaves the counter one above, a call that
    raises leaves it as it was. *)
Lemma step_counter action s :
  nb_step W (step W action s).1.2 =
  if returned (step W action s).2 then (fun n => n + 1) <$> nb_step W s.2 else nb_step W s.2.
Proof.
  rewrite step_cases.
  destruct (World_update W action (s.1, world W s.2)) as [[p w] [e|[]]]; simpl; [done|].
  destruct (nb_step W s.2) eqn:E; simpl; done.
Qed.

Lemma step_info action s n o r d i :
  nb_step W s.2 = Some n ->
  (step W action s).2 = Returned (o, r, d, i) ->
  info_step i = n + 1.
Proof.
  intros Hn. rewrite step_cases.
  destruct (World_update W action (s.1, world W s.2)) as [[p w] [e|[]]]; simpl; [done|].
  rewrite Hn. simpl. by intros [= <- <- <- <-].
Qed.

Lemma count_returned_cons {A B} (c : A * Outcome B) l :
  count_returned (c :: l) = (if returned c.2 then 1 else 0) + count_returned l.
Proof.
  unfold count_returned. rewrite filter_cons.
  destruct (returned c.2); case_decide; try done; simpl length; lia.
Qed.

(** After [k + 1] calls the counter, and the info of the last call when it
    returned, are the start value plus the number of calls that returned. *)
Lemma steps_counter actions s n k c :
  nb_step W s.2 = Some n ->
  steps W actions s !! k = Some c ->
  nb_step W c.1.2 = Some (n + count_returned (take (S k) (steps W actions s))) ∧
  ∀ o r d i, c.2 = Returned (o, r, d, i) ->
             info_step i = n + count_returned (take (S k) (steps W actions s)).
Proof.
  revert s n k. induction actions as [|a rest IH]; intros s n k Hn Hk; [done|].
  simpl steps in *. pose proof (step_counter a s) as Hc. rewrite Hn in Hc.
  destruct k as [|k]; simpl in Hk.
  - injection Hk as <-. rewrite firstn_cons, take_0, count_returned_cons.
    split.
    + rewrite Hc. destruct (returned _); simpl; f_equal; unfold count_returned; simpl; lia.
    + intros o r d i Hr. rewrite Hr. simpl.
      rewrite (step_info a s n o r d i Hn Hr). unfold count_returned. simpl. lia.
  - rewrite firstn_cons, count_returned_cons.
    destruct (returned (step W a s).2); simpl in Hc.
    + destruct (IH _ _ _ Hc Hk) as [H1 H2]. split.
      * rewrite H1. f_equal. lia.
      * intros o r d i Hr. rewrite (H2 _ _ _ _ Hr). lia.
    + destruct (IH _ _ _ Hc Hk) as [H1 H2]. split.
      * rewrite H1. f_equal.
      * intros o r d i Hr. rewrite (H2 _ _ _ _ Hr). lia.
Qed.

Lemma count_returned_all {A B} (l : list (A * Outcome B)) :
  Forall (fun c => returned c.2 = true) l ->
  count_returned l = Z.of_nat (length l).
Proof.
  induction 1 as [|c l Hc _ IH]; [done|].
  rewrite count_returned_cons, Hc, IH. simpl length. lia.
Qed.

End AdapterFacts.

(** After a reset the counter is an integer, so [step] raises only when the
    engine does. *)
Lemma step_returns (W : WorldClass) action (s : Process * TeamCatcher W) n :
  nb_step W s.2 = Some n ->
  returned (World_update W action (s.1, world W s.2)).2 = true ->
  returned (step W action s).2 = true.
Proof.
  intros Hn. rewrite step_cases.
  destruct (World_update W action (s.1, world W s.2)) as [[p w] [e|[]]]; simpl; [done|].
  by rewrite Hn.
Qed.

Lemma step_without_counter (W : WorldClass) action (s : Process * TeamCatcher W) :
  nb_step W s.2 = None ->
  returned (step W action s).2 = false ∧
  (returned (World_update W action (s.1, world W s.2)).2 = true ->
   (step W action s).2 = Raised (Raise TypeError [])).
Proof.
  intros Hn. rewrite step_cases.
  destruct (World_update W action (s.1, world W s.2)) as [[p w] [e|[]]]; simpl; [done|].
  by rewrite Hn.
Qed.

(** The guard of [__init__] raises exactly when the agents and the targets
    alone exceed the capacity; the mobiles are in the message only. *)
Lemma init_guard_raises (W : WorldClass) grid_size nb_agents nb_targets nb_mobiles sd p :
  (grid_size - 1) ^ 2 < nb_agents + nb_targets ->
  TeamCatcher_init W grid_size nb_agents nb_targets nb_mobiles sd p
  = (p, Raised (Raise ValueError [nb_agents + nb_targets + nb_mobiles; (grid_size - 1) ^ 2])).
Proof.
  intros H. unfold TeamCatcher_init.
  destruct (Z.ltb_spec ((grid_size - 1) ^ 2) (nb_agents + nb_targets)); [done|lia].
Qed.

Lemma init_guard_passes (W : WorldClass) grid_size nb_agents nb_targets nb_mobiles sd p :
  nb_agents + nb_targets <= (grid_size - 1) ^ 2 ->
  declared_spaces_error grid_size nb_agents = None ->
  TeamCatcher_init W grid_size nb_agents nb_targets nb_mobiles sd p
  = match World_new W grid_size nb_agents nb_targets nb_mobiles sd p with
    | (p1, Raised e) => (p1, Raised e)
    | (p1, Returned w) =>
        match seed sd p1 with
        | (p2, Raised e) => (p2, Raised e)
        | (p2, Returned _) =>
            (p2, Returned
                   {| grid_size := grid_size;
                      action_space := declared_action_space nb_agents;
                      observation_space := declared_observation_space grid_size nb_agents;
                      world := w;
                      nb_targets_alive := World_nb_targets_alive W w;
                      obs := None; viewer := None; nb_step := None |})
        end
    end.
Proof.
  intros H Hs. unfold TeamCatcher_init. rewrite Hs.
  destruct (Z.ltb_spec ((grid_size - 1) ^ 2) (nb_agents + nb_targets)); [lia|].
  unfold bind, ret.
  destruct (World_new W grid_size nb_agents nb_targets nb_mobiles sd p) as [p1 [e|w]]; [done|].
  destruct (seed sd p1) as [p2 [e|[]]]; done.
Qed.

(** Past the guard, [__init__] raises what the constructors of the spaces
    raise, before the World is made. *)
Lemma init_spaces_raise (W : WorldClass) grid_size nb_agents nb_targets nb_mobiles sd p e :
  nb_agents + nb_targets <= (grid_size - 1) ^ 2 ->
  declared_spaces_error grid_size nb_agents = Some e ->
  TeamCatcher_init W grid_size nb_agents nb_targets nb_mobiles sd p = (p, Raised e).
Proof.
  intros H Hs. unfold TeamCatcher_init. rewrite Hs.
  destruct (Z.ltb_spec ((grid_size - 1) ^ 2) (nb_agents + nb_targets)); [lia|done].
Qed.

Lemma demo_world_constructed :
  Engine.new zero_words 4 2 1 0 (Some 42) fresh_process = (fresh_process, Returned demo_world).
Proof. vm_compute. reflexivity. Qed.

Lemma demo_env_constructed :
  TeamCatcher_init demo_game 4 2 1 0 (Some 42) fresh_process
  = ({| np_random := {| seeding := FromSeed 42; drawn := 0 |};
        entropy_reads := 1; display := [] |}, Returned demo_env).
Proof.
  rewrite init_guard_passes by (vm_compute; (discriminate || reflexivity)).
  change (World_new demo_game 4 2 1 0 (Some 42) fresh_process)
    with (Engine.new zero_words 4 2 1 0 (Some 42) fresh_process).
  rewrite demo_world_constructed. reflexivity.
Qed.

(** * The claims on the adapter *)

(** C1 (the code departs from it): with [grid_size = 3], [nb_agents = 2],
    [nb_targets = 2] and [nb_mobiles = 1] the population 5 exceeds the capacity
    4, yet the guard of [__init__] does not raise: the constructor goes on to
    build the World, and returns the environment when the engine and the
    seeding return. *)
Theorem init_guard_omits_mobiles (W : WorldClass) (sd : option Z) (p : Process) :
  (3 - 1) ^ 2 < 2 + 2 + 1 ∧
  TeamCatcher_init W 3 2 2 1 sd p
  = match World_new W 3 2 2 1 sd p with
    | (p1, Raised e) => (p1, Raised e)
    | (p1, Returned w) =>
        match seed sd p1 with
        | (p2, Raised e) => (p2, Raised e)
        | (p2, Returned _) =>
            (p2, Returned
                   {| grid_size := 3;
                      action_space := declared_action_space 2;
                      observation_space := declared_observation_space 3 2;
                      world := w;
                      nb_targets_alive := World_nb_targets_alive W w;
                      obs := None; viewer := None; nb_step := None |})
        end
    end.
Proof.
  split; [lia|]. apply init_guard_passes; [lia|reflexivity].
Qed.

(** C4: the reward returned by [step] is [capturedTargets + 2 * capturedMobiles],
    the two counts being those the engine holds after its update. *)
Theorem step_reward (W : WorldClass) action (s : Process * TeamCatcher W)
    o reward done info :
  (step W action s).2 = Returned (o, reward, done, info) ->
  reward = World_capturedTargets W (world W (step W action s).1.2)
           + 2 * World_capturedMobiles W (world W (step W action s).1.2).
Proof.
  rewrite step_cases.
  destruct (World_update W action (s.1, world W s.2)) as [[p w] [e|[]]]; simpl; [done|].
  destruct (nb_step W s.2) eqn:E; simpl; [|done].
  by intros [= <- <- <- <-].
Qed.

Lemma step_reward_witness :
  ∃ o done info,
    (step demo_game [("agent_1", 2); ("agent_2", 0)] demo_near).2
      = Returned (o, 1, done, info) ∧
    1 = World_capturedTargets demo_game
          (world demo_game (step demo_game [("agent_1", 2); ("agent_2", 0)] demo_near).1.2)
        + 2 * World_capturedMobiles demo_game
                (world demo_game (step demo_game [("agent_1", 2); ("agent_2", 0)] demo_near).1.2).
Proof.
  eexists _, _, _.
  assert (H : (step demo_game [("agent_1", 2); ("agent_2", 0)] demo_near).2
              = Returned ({| map := [[0; 1; 0; 0]; [0; 0; 1; 0]; [0; 0; 0; 0]; [0; 0; 0; 0]];
                             agent_position := [("agent_1", (1, 2)); ("agent_2", (0, 1))] |},
                          1, true, {| info_step := 3; info_target_alive := 0 |}))
    by (vm_compute; reflexivity).
  exact (conj H (step_reward _ _ _ _ _ _ _ H)).
Defined.

(** C5: the flag [done] returned by [step] is [True] exactly when the engine
    counts no live target after its update, and [False] otherwise; the count is
    the one the environment keeps in [nb_targets_alive] and reports in [info]. *)
Theorem step_done (W : WorldClass) action (s : Process * TeamCatcher W)
    o reward done info :
  (step W action s).2 = Returned (o, reward, done, info) ->
  done = (World_nb_targets_alive W (world W (step W action s).1.2) =? 0) ∧
  nb_targets_alive W (step W action s).1.2
  = World_nb_targets_alive W (world W (step W action s).1.2) ∧
  info_target_alive info = nb_targets_alive W (step W action s).1.2.
Proof.
  rewrite step_cases.
  destruct (World_update W action (s.1, world W s.2)) as [[p w] [e|[]]]; simpl; [done|].
  destruct (nb_step W s.2) eqn:E; simpl; [|done].
  intros [= <- <- <- <-]. unfold episode_end.
  by destruct (World_nb_targets_alive W w =? 0).
Qed.

Lemma step_done_witness :
  ∃ o reward info,
    (step demo_game [("agent_1", 2); ("agent_2", 0)] demo_near).2
      = Returned (o, reward, true, info) ∧
    World_nb_targets_alive demo_game
      (world demo_game (step demo_game [("agent_1", 2); ("agent_2", 0)] demo_near).1.2) = 0 ∧
    ∃ o' reward' info',
      (step demo_game [("agent_1", 4); ("agent_2", 0)] demo_start).2
        = Returned (o', reward', false, info') ∧
      World_nb_targets_alive demo_game
        (world demo_game (step demo_game [("agent_1", 4); ("agent_2", 0)] demo_start).1.2) = 1.
Proof.
  eexists _, _, _.
  assert (H : (step demo_game [("agent_1", 2); ("agent_2", 0)] demo_near).2
              = Returned ({| map := [[0; 1; 0; 0]; [0; 0; 1; 0]; [0; 0; 0; 0]; [0; 0; 0; 0]];
                             agent_position := [("agent_1", (1, 2)); ("agent_2", (0, 1))] |},
                          1, true, {| info_step := 3; info_target_alive := 0 |}))
    by (vm_compute; reflexivity).
  split; [exact H|].
  destruct (step_done _ _ _ _ _ _ _ H) as [Hd _].
  split; [by apply Z.eqb_eq|].
  eexists _, _, _.
  assert (H' : (step demo_game [("agent_1", 4); ("agent_2", 0)] demo_start).2
               = Returned ({| map := [[0; 1; 2; 0]; [1; 0; 0; 0]; [0; 0; 0; 0]; [0; 0; 0; 0]];
                              agent_position := [("agent_1", (1, 0)); ("agent_2", (0, 1))] |},
                           0, false, {| info_step := 1; info_target_alive := 1 |}))
    by (vm_compute; reflexivity).
  split; [exact H'|].
  destruct (step_done _ _ _ _ _ _ _ H') as [Hd' _].
  vm_compute. reflexivity.
Defined.

(** C6: [reset] sets the step counter to 0 and returns the state the engine
    exports; from there each call of [step] that returns advances the counter
    by one and a call that raises leaves it, so the info of a call reports the
    number of calls that returned so far: [k] for the [k]-th call when all of
    them returned. *)
Theorem reset_then_steps (W : WorldClass) (s : Process * TeamCatcher W) o actions :
  (reset W s).2 = Returned o ->
  nb_step W (reset W s).1.2 = Some 0 ∧
  o = World_get_state W (world W (reset W s).1.2) ∧
  obs W (reset W s).1.2 = Some o ∧
  (∀ k c, steps W actions (reset W s).1 !! k = Some c ->
     nb_step W c.1.2
       = Some (count_returned (take (S k) (steps W actions (reset W s).1))) ∧
     ∀ o' r d i, c.2 = Returned (o', r, d, i) ->
       info_step i = count_returned (take (S k) (steps W actions (reset W s).1))) ∧
  (Forall (fun c => returned c.2 = true) (steps W actions (reset W s).1) ->
   ∀ k c o' r d i, steps W actions (reset W s).1 !! k = Some c ->
     c.2 = Returned (o', r, d, i) -> info_step i = Z.of_nat k + 1).
Proof.
  intros Hr.
  assert (H0 : nb_step W (reset W s).1.2 = Some 0 ∧
               o = World_get_state W (world W (reset W s).1.2) ∧
               obs W (reset W s).1.2 = Some o).
  { revert Hr. rewrite reset_cases.
    destruct (World_reset W (s.1, world W s.2)) as [[p w] [e|[]]]; simpl; [done|].
    by intros [= <-]. }
  destruct H0 as (H0 & Ho & Hobs).
  assert (Hk : ∀ k c, steps W actions (reset W s).1 !! k = Some c ->
     nb_step W c.1.2
       = Some (count_returned (take (S k) (steps W actions (reset W s).1))) ∧
     ∀ o' r d i, c.2 = Returned (o', r, d, i) ->
       info_step i = count_returned (take (S k) (steps W actions (reset W s).1))).
  { intros k c Hc. destruct (steps_counter W actions _ 0 k c H0 Hc) as [H1 H2].
    split; [by rewrite H1|]. intros o' r d i Hi. by rewrite (H2 _ _ _ _ Hi). }
  repeat split; try done; try (by apply Hk).
  intros Hall k c o' r d i Hc Hi.
  destruct (Hk k c Hc) as [_ H2]. rewrite (H2 _ _ _ _ Hi).
  rewrite count_returned_all by (by apply Forall_take).
  rewrite length_take. apply lookup_lt_Some in Hc. lia.
Qed.

Lemma reset_then_steps_witness :
  (reset demo_game (fresh_process, demo_env)).2
  = Returned {| map := [[1; 1; 2; 0]; [0; 0; 0; 0]; [0; 0; 0; 0]; [0; 0; 0; 0]];
                agent_position := [("agent_1", (0, 0)); ("agent_2", (0, 1))] |} ∧
  nb_step demo_game demo_start.2 = Some 0 ∧
  (info_step <$> ((fun c => match c.2 with
                            | Returned (_, _, _, i) => i
                            | Raised _ => {| info_step := 0; info_target_alive := 0 |}
                            end) <$> steps demo_game scripted_actions demo_start))
  = [1; 2; 3].
Proof.
  assert (H : (reset demo_game (fresh_process, demo_env)).2
              = Returned {| map := [[1; 1; 2; 0]; [0; 0; 0; 0]; [0; 0; 0; 0]; [0; 0; 0; 0]];
                            agent_position := [("agent_1", (0, 0)); ("agent_2", (0, 1))] |})
    by (vm_compute; reflexivity).
  split; [exact H|].
  destruct (reset_then_steps demo_game _ _ scripted_actions H) as (H0 & _).
  split; [exact H0|].
  vm_compute. reflexivity.
Defined.

(** C9: on a newly constructed environment the step counter is [None], and a
    call of [step] before any [reset] does not return, whatever the action and
    the state of the process: when the engine's update returns, the increment of
    the counter raises a [TypeError]. *)
Theorem step_before_reset (W : WorldClass) grid_size nb_agents nb_targets nb_mobiles sd p
    (self : TeamCatcher W) action (p' : Process) :
  (TeamCatcher_init W grid_size nb_agents nb_targets nb_mobiles sd p).2 = Returned self ->
  nb_step W self = None ∧
  returned (step W action (p', self)).2 = false ∧
  (returned (World_update W action (p', world W self)).2 = true ->
   (step W action (p', self)).2 = Raised (Raise TypeError [])).
Proof.
  intros Hinit.
  assert (Hn : nb_step W self = None).
  { revert Hinit. unfold TeamCatcher_init.
    destruct ((grid_size - 1) ^ 2 <? nb_agents + nb_targets); [done|].
    destruct (declared_spaces_error grid_size nb_agents); [done|].
    unfold bind, ret.
    destruct (World_new W grid_size nb_agents nb_targets nb_mobiles sd p) as [p1 [e|w]]; [done|].
    destruct (seed sd p1) as [p2 [e|[]]]; [done|]. simpl. by intros [= <-]. }
  split; [done|]. by apply (step_without_counter W action (p', self)).
Qed.

Lemma step_before_reset_witness :
  (TeamCatcher_init demo_game 4 2 1 0 (Some 42) fresh_process).2 = Returned demo_env ∧
  nb_step demo_game demo_env = None ∧
  (step demo_game [("agent_1", 4); ("agent_2", 0)] (fresh_process, demo_env)).2
  = Raised (Raise TypeError []).
Proof.
  assert (H : (TeamCatcher_init demo_game 4 2 1 0 (Some 42) fresh_process).2
              = Returned demo_env) by (rewrite demo_env_constructed; reflexivity).
  split; [exact H|].
  destruct (step_before_reset demo_game 4 2 1 0 (Some 42) fresh_process demo_env
              [("agent_1", 4); ("agent_2", 0)] fresh_process H) as (Hn & _ & Ht).
  split; [exact Hn|]. apply Ht. vm_compute. reflexivity.
Defined.

(** C10: [close] is idempotent: after a call the viewer handle is [None], and
    a second call returns without changing the environment or the process. *)
Theorem close_idempotent (W : WorldClass) (s : Process * TeamCatcher W) :
  viewer W (close W s).1.2 = None ∧
  (close W s).2 = Returned tt ∧
  close W (close W s).1 = ((close W s).1, Returned tt).
Proof.
  destruct s as [p self].
  unfold close, bind, get_self, on_process, modify_self, viewer_close, ret. simpl.
  destruct (viewer W self) eqn:E; simpl; [done|].
  by rewrite E.
Qed.

(** * Properties of the engine *)

Section EngineFacts.

Import Engine.

Variable words : Seeding -> nat -> nat.

Implicit Types (w : World) (c p : Cell) (l : list Entity).



Lemma live_cells_alive c l :
  live_cells ({| position := c; alive := true |} :: l) = c :: live_cells l.
Proof. unfold live_cells. by rewrite filter_cons_True. Qed.













Lemma capture_cases ags e :
  capture ags e = e ∨
  (alive e = true ∧ capture ags e = {| position := position e; alive := false |}).
Proof.
  unfold capture. destruct (captured ags e) eqn:Hc; [right|by left].
  unfold captured in Hc. apply andb_true_iff in Hc as [He _]. by split.
Qed.

Lemma live_cells_capture ags l :
  live_cells (capture ags <$> l) `sublist_of` live_cells l.
Proof.
  unfold live_cells. induction l as [|e l IH]; [done|].
  rewrite fmap_cons.
  destruct (capture_cases ags e) as [->|[He ->]].
  - rewrite !filter_cons. case_decide; simpl; [by apply sublist_skip|done].
  - rewrite filter_cons_False by done. rewrite filter_cons_True by done.
    simpl. by apply sublist_cons.
Qed.




(** *** The initializer *)

Lemma elem_of_range n x : x ∈ range n <-> 0 <= x < n.
Proof.
  unfold range. rewrite list_elem_of_fmap. split.
  - intros (k & -> & Hk%elem_of_seq). lia.
  - intros Hx. exists (Z.to_nat x). rewrite elem_of_seq. lia.
Qed.

Lemma NoDup_range n : NoDup (range n).
Proof. unfold range. apply NoDup_fmap_2; [apply _|apply NoDup_seq]. Qed.

Lemma length_range n : length (range n) = Z.to_nat n.
Proof. unfold range. by rewrite length_fmap, length_seq. Qed.

Lemma elem_of_all_cells n c :
  c ∈ all_cells n <-> 0 <= c.1 < n ∧ 0 <= c.2 < n.
Proof.
  unfold all_cells. rewrite list_elem_of_bind. split.
  - intros (x & (y & -> & Hy%elem_of_range)%list_elem_of_fmap & Hx%elem_of_range). done.
  - intros [Hx Hy]. exists c.1. rewrite list_elem_of_fmap, elem_of_range. split; [|done].
    exists c.2. rewrite elem_of_range. by destruct c.
Qed.

Lemma NoDup_all_cells n : NoDup (all_cells n).
Proof.
  unfold all_cells. apply NoDup_bind.
  - intros x1 x2 c _ _ (y1 & -> & _)%list_elem_of_fmap (y2 & [= -> _] & _)%list_elem_of_fmap.
    done.
  - intros x _. apply NoDup_fmap_2; [|apply NoDup_range]. by intros y1 y2 [= ->].
  - apply NoDup_range.
Qed.

Lemma length_all_cells n : length (all_cells n) = (Z.to_nat n * Z.to_nat n)%nat.
Proof.
  unfold all_cells.
  assert (H : ∀ l : list Z,
             length (l ≫= fun x => (fun y => (x, y)) <$> range n)
             = (length l * Z.to_nat n)%nat).
  { induction l as [|x l IH]; [done|].
    rewrite bind_cons, length_app, length_fmap, length_range, IH. done. }
  by rewrite H, length_range.
Qed.

Lemma set_rng_idem n m w : set_rng n (set_rng m w) = set_rng n w.
Proof. done. Qed.

(** A draw only advances the generator. *)
Lemma sample_state k pool w :
  (sample words k pool w).1 = set_rng (w_rng (sample words k pool w).1) w.
Proof.
  revert pool w. induction k as [|k IH]; intros pool w; [by destruct w|].
  simpl. destruct pool as [|c0 pool']; [by destruct w|].
  unfold draw, bind. cbv zeta.
  set (i := (words (w_gen w) (w_rng w) `mod` length (c0 :: pool'))%nat).
  set (w1 := set_rng (S (w_rng w)) w).
  specialize (IH (delete i (c0 :: pool')) w1).
  destruct (sample words k (delete i (c0 :: pool')) w1) as [w2 [e|cs]]; simpl in *;
    by rewrite IH.
Qed.

(** The cells drawn are pairwise distinct cells of the pool. *)
Lemma sample_returned k pool w w' cs :
  NoDup pool ->
  sample words k pool w = (w', Returned cs) ->
  NoDup cs ∧ (∀ c, c ∈ cs -> c ∈ pool) ∧ length cs = k.
Proof.
  revert pool w w' cs. induction k as [|k IH]; intros pool w w' cs Hnd.
  - intros [= <- <-]. split; [constructor|]. split; [|done]. by intros c ?%elem_of_nil.
  - simpl. destruct pool as [|c0 pool']; [done|].
    unfold draw, bind. cbv zeta.
    set (pool := c0 :: pool') in *.
    set (i := (words (w_gen w) (w_rng w) `mod` length pool)%nat).
    set (w1 := set_rng (S (w_rng w)) w).
    assert (Hi : (i < length pool)%nat) by (apply Nat.mod_upper_bound; done).
    destruct (nth_lookup_or_length pool i c0) as [Hl|Hl]; [|lia].
    specialize (IH (delete i pool) w1).
    destruct (sample words k (delete i pool) w1) as [w2 [e|cs']]; [done|].
    intros [= <- <-].
    destruct (IH w2 cs') as (Hnd' & Hin & Hlen); [|done|].
    { eapply sublist_NoDup; [exact Hnd|apply sublist_delete]. }
    split; [|split].
    + constructor; [|done]. intros Hc%Hin.
      rewrite delete_take_drop in Hc.
      rewrite <- (take_drop_middle _ _ _ Hl) in Hnd.
      apply NoDup_app in Hnd as (_ & Hd & [Hx _]%NoDup_cons).
      apply elem_of_app in Hc as [Hc|Hc]; [|done].
      apply (Hd _ Hc). by left.
    + intros c [->|Hc%Hin]%elem_of_cons.
      * by eapply list_elem_of_lookup_2.
      * by eapply list_elem_of_delete_inv.
    + simpl. by rewrite Hlen.
Qed.

(** The draw succeeds when the pool is large enough. *)
Lemma sample_returns k pool w :
  (k <= length pool)%nat -> returned (sample words k pool w).2 = true.
Proof.
  revert pool w. induction k as [|k IH]; intros pool w Hk; [done|].
  simpl. destruct pool as [|c0 pool']; [simpl in Hk; lia|].
  unfold draw, bind. cbv zeta.
  set (pool := c0 :: pool') in *.
  set (i := (words (w_gen w) (w_rng w) `mod` length pool)%nat).
  set (w1 := set_rng (S (w_rng w)) w).
  assert (Hi : (i < length pool)%nat) by (apply Nat.mod_upper_bound; done).
  specialize (IH (delete i pool) w1).
  rewrite length_delete in IH by (by apply lookup_lt_is_Some).
  destruct (sample words k (delete i pool) w1) as [w2 [e|cs']]; simpl in *; [|done].
  apply IH. lia.
Qed.

Lemma live_cells_fresh (cs : list Cell) :
  live_cells ((fun c => {| position := c; alive := true |}) <$> cs) = cs.
Proof.
  induction cs as [|c cs IH]; [done|]. rewrite fmap_cons, live_cells_alive. by f_equal.
Qed.

Lemma positions_fresh (cs : list Cell) :
  position <$> ((fun c => {| position := c; alive := true |}) <$> cs) = cs.
Proof. rewrite <- list_fmap_compose. by rewrite list_fmap_id. Qed.

Lemma initializer_invariant w w' :
  initializer words w = (w', Returned tt) -> grid_invariant w'.
Proof.
  unfold initializer, bind, get, put.
  destruct (_ <? _); [done|].
  pose proof (sample_state (Z.to_nat (w_nb_agents w) + Z.to_nat (w_nb_targets w)
                            + Z.to_nat (w_nb_mobiles w)) (all_cells (w_size w)) w) as Hst.
  pose proof (sample_returned (Z.to_nat (w_nb_agents w) + Z.to_nat (w_nb_targets w)
                               + Z.to_nat (w_nb_mobiles w)) (all_cells (w_size w)) w) as Hret.
  destruct (sample words _ (all_cells (w_size w)) w) as [w1 [e|cs]]; [done|].
  simpl in Hst. intros [= <-].
  destruct (Hret w1 cs (NoDup_all_cells _) eq_refl) as (Hnd & Hin & Hlen).
  rewrite Hst. unfold grid_invariant, occupied_cells, all_positions. simpl.
  rewrite !live_cells_fresh, !positions_fresh.
  rewrite app_assoc, !take_take_drop.
  split.
  - eapply sublist_NoDup; [exact Hnd|apply sublist_take].
  - apply Forall_forall. intros c Hc.
    apply (elem_of_sublist _ cs) in Hc; [|apply sublist_take].
    apply Hin, elem_of_all_cells in Hc. lia.
Qed.


Lemma new_invariant size nb_agents nb_targets nb_mobiles seed (p p' : Process) w :
  new words size nb_agents nb_targets nb_mobiles seed p = (p', Returned w) ->
  grid_invariant w.
Proof.
  unfold new, bind.
  destruct (seed_generator seed p) as [p1 [e|g]]; [done|].
  destruct (initializer words _) as [w1 [e|[]]] eqn:E; [done|].
  intros [= _ <-]. by eapply initializer_invariant.
Qed.

(** A reset returns on every well-formed configuration. *)
Lemma reset_returns (p : Process) w :
  1 <= w_size w -> 0 <= w_nb_agents w -> 0 <= w_nb_targets w -> 0 <= w_nb_mobiles w ->
  w_nb_agents w + w_nb_targets w + w_nb_mobiles w <= (w_size w - 1) ^ 2 ->
  returned (reset words (p, w)).2 = true.
Proof.
  intros Hs Ha Ht Hm Hpop. unfold reset. simpl.
  destruct (seed_generator (w_seed w) p) as [p1 [e|g]] eqn:Hg.
  { unfold seed_generator in Hg. by destruct (w_seed w). }
  unfold initializer, bind, get, put. simpl.
  destruct (Z.ltb_spec ((w_size w - 1) ^ 2)
              (w_nb_agents w + w_nb_targets w + w_nb_mobiles w)); [lia|].
  pose proof (sample_returns (Z.to_nat (w_nb_agents w) + Z.to_nat (w_nb_targets w)
                              + Z.to_nat (w_nb_mobiles w)) (all_cells (w_size w))
                             (set_gen g w)) as Hret.
  destruct (sample words _ (all_cells (w_size w)) (set_gen g w)) as [w1 [e|cs]]; [|done].
  simpl in Hret. apply Hret. rewrite length_all_cells. nia.
Qed.

(** *** Live targets *)

Lemma count_alive_capture ags l : count_alive (capture ags <$> l) <= count_alive l.
Proof.
  unfold count_alive.
  pose proof (sublist_length _ _ (live_cells_capture ags l)) as H.
  unfold live_cells in H. rewrite !length_fmap in H. lia.
Qed.

Lemma targets_move_agent i a w : targets (move_agent i a w) = targets w.
Proof.
  unfold move_agent. destruct (agents w !! i); [|done]. by case_bool_decide.
Qed.

Lemma targets_resolve acts i w : targets (resolve i acts w) = targets w.
Proof.
  revert i w. induction acts as [|a rest IH]; intros i w; [done|].
  simpl. by rewrite IH, targets_move_agent.
Qed.

Lemma targets_move_mobile j w : targets (move_mobile words j w) = targets w.
Proof.
  unfold move_mobile. destruct (mobiles w !! j) as [e|]; [|done].
  destruct (alive e); [|done]. by destruct (filter _ _).
Qed.

Lemma targets_move_mobiles w : targets (move_mobiles words w) = targets w.
Proof.
  unfold move_mobiles. generalize (seq 0 (length (mobiles w))).
  intros js. revert w. induction js as [|j js IH]; intros w; [done|].
  simpl. by rewrite IH, targets_move_mobile.
Qed.

(** An update never raises the count of live targets. *)
Lemma update_targets_alive actions w :
  nb_targets_alive (update words actions w).1 <= nb_targets_alive w.
Proof.
  unfold update. destruct (validate w actions) as [e|acts]; [done|]. simpl.
  unfold nb_targets_alive. simpl.
  rewrite targets_move_mobiles, targets_resolve.
  apply count_alive_capture.
Qed.

End EngineFacts.

(** * The claims on the engine *)





(** A rejected update leaves the World as it was. *)
Lemma update_raised words actions (w : Engine.World) e :
  (Engine.update words actions w).2 = Raised e ->
  (Engine.update words actions w).1 = w.
Proof.
  unfold Engine.update. by destruct (Engine.validate w actions).
Qed.

Section Episode.

Variable words : Seeding -> nat -> nat.

Local Abbreviation G := (Engine.game words).

Implicit Types (s : Process * TeamCatcher G).

Lemma reset_count_agrees s o :
  (reset G s).2 = Returned o -> count_agrees words (reset G s).1.
Proof.
  rewrite reset_cases.
  destruct (World_reset G (s.1, world G s.2)) as [[p w] [e|[]]]; simpl; done.
Qed.

Lemma step_count action s :
  count_agrees words s ->
  count_agrees words (step G action s).1 ∧
  nb_targets_alive G (step G action s).1.2 <= nb_targets_alive G s.2.
Proof.
  unfold count_agrees. intros Hs. rewrite step_cases.
  pose proof (update_targets_alive words action (world G s.2)) as Hle.
  pose proof (update_raised words action (world G s.2)) as Hun.
  simpl. unfold Engine.lift. simpl.
  destruct (Engine.update words action (world G s.2)) as [w [e|r]]; simpl in *.
  - rewrite (Hun e eq_refl). split; [done|lia].
  - destruct (nb_step G s.2); simpl; split; try done; lia.
Qed.

Lemma alive_history_cons a rest s :
  alive_history G (a :: rest) s
  = nb_targets_alive G s.2 :: alive_history G rest (step G a s).1.
Proof. done. Qed.

Lemma alive_history_head actions s :
  alive_history G actions s !! 0%nat = Some (nb_targets_alive G s.2).
Proof. done. Qed.

Lemma alive_history_monotone actions s i j x y :
  count_agrees words s -> (i <= j)%nat ->
  alive_history G actions s !! i = Some x ->
  alive_history G actions s !! j = Some y ->
  y <= x.
Proof.
  revert s i j x y. induction actions as [|a rest IH]; intros s i j x y Hs Hij Hi Hj.
  - destruct i, j; simpl in *; try done. injection Hi as <-. injection Hj as <-. lia.
  - rewrite alive_history_cons in Hi, Hj.
    destruct (step_count a s Hs) as [Hs' Hle].
    destruct j as [|j].
    + destruct i; [|lia]. simpl in *. injection Hi as <-. injection Hj as <-. lia.
    + simpl in Hj. destruct i as [|i]; simpl in Hi.
      * injection Hi as <-.
        pose proof (IH _ 0%nat j _ y Hs' ltac:(lia) (alive_history_head rest _) Hj). lia.
      * apply (IH _ i j x y Hs' ltac:(lia) Hi Hj).
Qed.

End Episode.

(** C7: within an episode the count of live targets the environment shows,
    [nb_targets_alive], never increases from one step to a later one. *)
Theorem targets_alive_monotone words
    (s : Process * TeamCatcher (Engine.game words)) o actions (i j : nat) x y :
  (reset (Engine.game words) s).2 = Returned o ->
  (i <= j)%nat ->
  alive_history (Engine.game words) actions (reset (Engine.game words) s).1 !! i = Some x ->
  alive_history (Engine.game words) actions (reset (Engine.game words) s).1 !! j = Some y ->
  y <= x.
Proof.
  intros Hr. apply alive_history_monotone. by eapply reset_count_agrees.
Qed.

Lemma targets_alive_monotone_witness :
  (reset demo_game (fresh_process, demo_env)).2
  = Returned {| map := [[1; 1; 2; 0]; [0; 0; 0; 0]; [0; 0; 0; 0]; [0; 0; 0; 0]];
                agent_position := [("agent_1", (0, 0)); ("agent_2", (0, 1))] |} ∧
  alive_history demo_game scripted_actions demo_start = [1; 1; 1; 0] ∧
  (2 <= 3)%nat ∧
  alive_history demo_game scripted_actions demo_start !! 2%nat = Some 1 ∧
  alive_history demo_game scripted_actions demo_start !! 3%nat = Some 0 ∧
  0 <= 1.
Proof.
  assert (Hr : (reset demo_game (fresh_process, demo_env)).2
               = Returned {| map := [[1; 1; 2; 0]; [0; 0; 0; 0]; [0; 0; 0; 0]; [0; 0; 0; 0]];
                             agent_position := [("agent_1", (0, 0)); ("agent_2", (0, 1))] |})
    by (vm_compute; reflexivity).
  assert (Hh : alive_history demo_game scripted_actions demo_start = [1; 1; 1; 0])
    by (vm_compute; reflexivity).
  assert (H2 : alive_history demo_game scripted_actions demo_start !! 2%nat = Some 1)
    by (rewrite Hh; reflexivity).
  assert (H3 : alive_history demo_game scripted_actions demo_start !! 3%nat = Some 0)
    by (rewrite Hh; reflexivity).
  assert (Hle : (2 <= 3)%nat) by lia.
  exact (conj Hr (conj Hh (conj Hle (conj H2 (conj H3
           (targets_alive_monotone zero_words (fresh_process, demo_env) _ scripted_actions
              2%nat 3%nat 1 0 Hr Hle H2 H3)))))).
Defined.

Section Determinism.

Variable words : Seeding -> nat -> nat.

Local Abbreviation G := (Engine.game words).

Implicit Types (p : Process) (self : TeamCatcher G).











End Determinism.



(** * The shape of the exported state *)

Lemma agent_key_inj i j : agent_key i = agent_key j -> i = j.
Proof.
  unfold agent_key. intros H. simpl in H. injection H as H.
  apply pretty_Z_inj in H. lia.
Qed.

Lemma dict_get_agents (l : list Engine.Cell) (m k : nat) :
  dict_get (agent_key (Z.of_nat (m + k)))
           (imap (fun i p => (agent_key (Z.of_nat (m + i)), p)) l)
  = l !! k.
Proof.
  revert m k. induction l as [|p l IH]; intros m k; [done|].
  rewrite imap_cons. cbn [dict_get].
  destruct (String.eqb_spec (agent_key (Z.of_nat (m + k))) (agent_key (Z.of_nat (m + 0))))
    as [Heq|Hne].
  - apply agent_key_inj in Heq. assert (k = 0%nat) as -> by lia. done.
  - destruct k as [|k]; [by rewrite Nat.add_0_r in Hne|].
    simpl lookup. rewrite <- (IH (S m) k).
    replace (m + S k)%nat with (S m + k)%nat by lia.
    f_equal. apply imap_ext. intros i x _. simpl. do 3 f_equal. lia.
Qed.

Lemma dict_get_agent (l : list Engine.Cell) (k : nat) :
  dict_get (agent_key (Z.of_nat k)) (imap (fun i p => (agent_key (Z.of_nat i), p)) l)
  = l !! k.
Proof. exact (dict_get_agents l 0 k). Qed.

(** The state the engine exports has the shape the specification gives it,
    as long as the positions are within bounds. *)
Lemma get_state_shape (w : Engine.World) :
  0 <= Engine.w_size w ->
  Engine.separation_invariant w ->
  claimed_shape (Engine.w_size w) (Z.of_nat (length (Engine.agents w))) (Engine.get_state w)
  = true.
Proof.
  intros Hn (_ & _ & Hb). unfold claimed_shape, Engine.get_state. simpl.
  rewrite !andb_true_iff. repeat split.
  - unfold has_shape. rewrite andb_true_iff. split.
    + apply Z.eqb_eq. rewrite length_fmap, length_range. lia.
    + rewrite forallb_forall. intros row [x [-> _]]%list_elem_of_In%list_elem_of_fmap.
      apply Z.eqb_eq. rewrite length_fmap, length_range. lia.
  - rewrite forallb_forall. intros row [x [-> _]]%list_elem_of_In%list_elem_of_fmap.
    rewrite forallb_forall. intros v [y [-> _]]%list_elem_of_In%list_elem_of_fmap.
    by destruct (Engine.occupant w (x, y)).
  - rewrite length_imap, Nat2Z.id. apply Nat.eqb_refl.
  - rewrite forallb_forall. intros i [Hi1 Hi2]%list_elem_of_In%elem_of_range.
    assert (Hk : i = Z.of_nat (Z.to_nat i)) by lia.
    revert Hi2. generalize (Z.to_nat i) Hk. intros k -> Hi2.
    rewrite dict_get_agent.
    destruct (Engine.agents w !! k) as [[x y]|] eqn:Hl.
    + unfold Engine.all_positions in Hb. apply Forall_app in Hb as [Ha _].
      eapply Forall_forall in Ha; [|by eapply list_elem_of_lookup_2].
      simpl in Ha. lia.
    + apply lookup_ge_None in Hl. lia.
Qed.

(** * The declared observation space *)

Lemma dict_get_fmap {A B} (f : A -> B) k (d : list (string * A)) :
  dict_get k ((fun kp => (kp.1, f kp.2)) <$> d) = f <$> dict_get k d.
Proof.
  induction d as [|[k' v] d IH]; [done|].
  simpl. by destruct (String.eqb k k').
Qed.

(** Membership in the declared space, spelled out: the map is checked by the
    Box, each declared agent key by its pair of Discrete spaces. *)
Lemma contains_declared grid_size nb_agents (o : Observation) :
  contains (declared_observation_space grid_size nb_agents) (value_of_obs o)
  = has_shape grid_size grid_size (map o)
    && forallb (forallb (fun x => (0 <=? x) && (x <=? 2))) (map o)
    && ((length (agent_position o) =? length (range nb_agents))%nat
        && forallb (fun i =>
                      match dict_get (agent_key i) (agent_position o) with
                      | Some (x, y) =>
                          (0 <=? x) && (x <? grid_size - 1)
                          && ((0 <=? y) && (y <? grid_size - 1))
                      | None => false
                      end) (range nb_agents)).
Proof.
  unfold declared_observation_space, value_of_obs.
  cbn -[has_shape forallb range Z.leb Z.ltb].
  rewrite !andb_true_r, !length_fmap. f_equal. f_equal.
  induction (range nb_agents) as [|i l IH]; [done|].
  rewrite fmap_cons. cbn -[Z.leb Z.ltb agent_key].
  rewrite (dict_get_fmap (fun p : Z * Z => VTuple [VInt p.1; VInt p.2])).
  destruct (dict_get (agent_key i) (agent_position o)) as [[x y]|]; [|done].
  cbn -[Z.leb Z.ltb agent_key]. rewrite andb_true_r. f_equal. apply IH.
Qed.

(** C3 (the code departs from it): the declared observation space holds no
    observation with a mobile (code 3) on the map, and none with an agent at the
    coordinate [grid_size - 1]. *)
Theorem declared_space_rejects grid_size nb_agents (o : Observation) :
  (∃ row, row ∈ map o ∧ 3 ∈ row) ∨
  (∃ i x y, i ∈ range nb_agents ∧
            dict_get (agent_key i) (agent_position o) = Some (x, y) ∧
            (x = grid_size - 1 ∨ y = grid_size - 1)) ->
  contains (declared_observation_space grid_size nb_agents) (value_of_obs o) = false.
Proof.
  rewrite contains_declared. intros [(row & Hrow & H3)|(i & x & y & Hi & Hget & Hxy)].
  - apply andb_false_intro1, andb_false_intro2.
    apply not_true_is_false. rewrite forallb_forall. intros Hall.
    specialize (Hall row (proj1 (list_elem_of_In _ _) Hrow)).
    rewrite forallb_forall in Hall.
    specialize (Hall 3 (proj1 (list_elem_of_In _ _) H3)). done.
  - apply andb_false_intro2, andb_false_intro2.
    apply not_true_is_false. rewrite forallb_forall. intros Hall.
    specialize (Hall i (proj1 (list_elem_of_In _ _) Hi)).
    rewrite Hget in Hall. destruct Hxy as [-> | ->]; lia.
Qed.

Lemma declared_space_rejects_witness :
  (run demo_game 3 1 1 1 (Some 42) [] fresh_process).2 = Ran mobile_observation [] ∧
  claimed_shape 3 1 mobile_observation = true ∧
  contains (declared_observation_space 3 1) (value_of_obs mobile_observation) = false ∧
  (run (Engine.game counting_words) 2 1 0 0 (Some 42) [] fresh_process).2
    = Ran corner_observation [] ∧
  claimed_shape 2 1 corner_observation = true ∧
  contains (declared_observation_space 2 1) (value_of_obs corner_observation) = false.
Proof.
  split; [vm_compute; reflexivity|].
  split; [vm_compute; reflexivity|].
  split.
  { apply declared_space_rejects. left. exists [1; 2; 3].
    split; [apply list_elem_of_here|].
    apply list_elem_of_further, list_elem_of_further, list_elem_of_here. }
  split; [vm_compute; reflexivity|].
  split; [vm_compute; reflexivity|].
  apply declared_space_rejects. right. exists 0, 1, 1.
  split; [apply list_elem_of_here|]. split; [vm_compute; reflexivity|]. by left.
Defined.

(** * More on the adapter: errors, frames and the declared spaces *)

(** X1: the population error of [__init__] is raised, whatever the engine and
    before the engine or the process is touched, exactly when the agents and the
    targets alone exceed the capacity; its message then counts the mobiles
    too. *)
Theorem population_error_iff grid_size nb_agents nb_targets nb_mobiles sd :
  (grid_size - 1) ^ 2 < nb_agents + nb_targets <->
  ∀ (W : WorldClass) (p : Process),
    TeamCatcher_init W grid_size nb_agents nb_targets nb_mobiles sd p
    = (p, Raised (Raise ValueError
                    [nb_agents + nb_targets + nb_mobiles; (grid_size - 1) ^ 2])).
Proof.
  split.
  - intros H W p. by apply init_guard_raises.
  - intros H. destruct (Z.lt_ge_cases ((grid_size - 1) ^ 2) (nb_agents + nb_targets))
      as [Hlt|Hge]; [done|].
    specialize (H idle_game fresh_process).
    destruct (declared_spaces_error grid_size nb_agents) as [e|] eqn:He.
    + rewrite (init_spaces_raise idle_game grid_size nb_agents nb_targets nb_mobiles
                 sd fresh_process e Hge He) in H.
      unfold declared_spaces_error in He.
      destruct (grid_size <? 0); [by injection He as <-|].
      destruct (_ && _); [by injection He as <-|done].
    + rewrite init_guard_passes in H by done. simpl in H.
      unfold ret, seed, np_random_seed in H.
      destruct sd as [s|]; [|done].
      by destruct (_ && _).
Qed.

(** X2: a call of [step] raises in two ways only.  Either the engine's update
    raised, and [step] passes the same exception on with the environment's own
    attributes as they were; or the update returned and the counter was [None],
    and [step] raises a [TypeError] after it has overwritten [obs] and
    [nb_targets_alive] from the engine. *)
Theorem step_raised (W : WorldClass) action (s : Process * TeamCatcher W) e :
  (step W action s).2 = Raised e ->
  ((World_update W action (s.1, world W s.2)).2 = Raised e ∧
   obs W (step W action s).1.2 = obs W s.2 ∧
   nb_targets_alive W (step W action s).1.2 = nb_targets_alive W s.2 ∧
   nb_step W (step W action s).1.2 = nb_step W s.2)
  ∨
  ((World_update W action (s.1, world W s.2)).2 = Returned tt ∧
   nb_step W s.2 = None ∧
   e = Raise TypeError [] ∧
   obs W (step W action s).1.2
     = Some (World_get_state W (world W (step W action s).1.2)) ∧
   nb_targets_alive W (step W action s).1.2
     = World_nb_targets_alive W (world W (step W action s).1.2)).
Proof.
  rewrite step_cases.
  destruct (World_update W action (s.1, world W s.2)) as [[p w] [e'|[]]]; simpl.
  - intros [= ->]. by left.
  - destruct (nb_step W s.2) eqn:E; simpl; [done|].
    intros [= <-]. right. repeat split; done.
Qed.

Lemma step_raised_witness :
  (step demo_game [("agent_1", 7); ("agent_2", 0)] demo_start).2
    = Raised (Raise ValueError [7]) ∧
  (World_update demo_game [("agent_1", 7); ("agent_2", 0)]
     (demo_start.1, world demo_game demo_start.2)).2 = Raised (Raise ValueError [7]) ∧
  nb_step demo_game (step demo_game [("agent_1", 7); ("agent_2", 0)] demo_start).1.2
    = Some 0.
Proof.
  assert (H : (step demo_game [("agent_1", 7); ("agent_2", 0)] demo_start).2
              = Raised (Raise ValueError [7])) by (vm_compute; reflexivity).
  split; [exact H|].
  destruct (step_raised demo_game _ _ _ H) as [(Hu & _ & _ & Hn)|(Hu & Hn & _)].
  - split; [exact Hu|]. rewrite Hn. vm_compute. reflexivity.
  - exfalso. revert Hn. vm_compute. discriminate.
Defined.

(** X3: [step] returns exactly when the engine's update returns and the step
    counter is an integer, that is when [reset] has run: it swallows no exception
    and adds none of its own after a reset. *)
Theorem step_returns_iff (W : WorldClass) action (s : Process * TeamCatcher W) :
  returned (step W action s).2 = true <->
  returned (World_update W action (s.1, world W s.2)).2 = true ∧
  is_Some (nb_step W s.2).
Proof.
  rewrite step_cases.
  destruct (World_update W action (s.1, world W s.2)) as [[p w] [e'|[]]]; simpl.
  - split; [done|]. by intros [? _].
  - destruct (nb_step W s.2) eqn:E; simpl.
    + split; [|done]. intros _. split; [done|]. by eexists.
    + split; [done|]. intros [_ [n Hn]]. done.
Qed.

(** X4: the observation a returning [step] hands out is the state the engine
    exports after its update, and it is the one kept in [self.obs], the one
    [render] draws. *)
Theorem step_observation (W : WorldClass) action (s : Process * TeamCatcher W)
    o reward done info :
  (step W action s).2 = Returned (o, reward, done, info) ->
  o = World_get_state W (world W (step W action s).1.2) ∧
  obs W (step W action s).1.2 = Some o.
Proof.
  rewrite step_cases.
  destruct (World_update W action (s.1, world W s.2)) as [[p w] [e'|[]]]; simpl; [done|].
  destruct (nb_step W s.2) eqn:E; simpl; [|done].
  by intros [= <- _ _ _].
Qed.

Lemma step_observation_witness :
  ∃ o reward done info,
    (step demo_game [("agent_1", 4); ("agent_2", 0)] demo_start).2
      = Returned (o, reward, done, info) ∧
    o = World_get_state demo_game
          (world demo_game (step demo_game [("agent_1", 4); ("agent_2", 0)] demo_start).1.2) ∧
    obs demo_game (step demo_game [("agent_1", 4); ("agent_2", 0)] demo_start).1.2 = Some o.
Proof.
  eexists _, _, _, _.
  assert (H : (step demo_game [("agent_1", 4); ("agent_2", 0)] demo_start).2
              = Returned ({| map := [[0; 1; 2; 0]; [1; 0; 0; 0]; [0; 0; 0; 0]; [0; 0; 0; 0]];
                             agent_position := [("agent_1", (1, 0)); ("agent_2", (0, 1))] |},
                          0, false, {| info_step := 1; info_target_alive := 1 |}))
    by (vm_compute; reflexivity).
  exact (conj H (step_observation _ _ _ _ _ _ _ H)).
Defined.

(** X5: [step] and [reset], returning or raising, leave the viewer, the grid
    size and the two declared spaces of the environment as they are. *)
Theorem step_reset_frame (W : WorldClass) action (s : Process * TeamCatcher W) :
  (viewer W (step W action s).1.2 = viewer W s.2 ∧
   grid_size W (step W action s).1.2 = grid_size W s.2 ∧
   action_space W (step W action s).1.2 = action_space W s.2 ∧
   observation_space W (step W action s).1.2 = observation_space W s.2) ∧
  (viewer W (reset W s).1.2 = viewer W s.2 ∧
   grid_size W (reset W s).1.2 = grid_size W s.2 ∧
   action_space W (reset W s).1.2 = action_space W s.2 ∧
   observation_space W (reset W s).1.2 = observation_space W s.2).
Proof.
  rewrite step_cases, reset_cases. split.
  - destruct (World_update W action (s.1, world W s.2)) as [[p w] [e'|[]]]; simpl; [done|].
    by destruct (nb_step W s.2).
  - by destruct (World_reset W (s.1, world W s.2)) as [[p w] [e'|[]]].
Qed.

(** X6: [close] never raises and touches nothing but the viewer: the engine,
    the observation, the counters and the generator of the process stay, and the
    display gets exactly one close, of the viewer held, when there is one. *)
Theorem close_frame (W : WorldClass) (s : Process * TeamCatcher W) :
  (close W s).2 = Returned tt ∧
  world W (close W s).1.2 = world W s.2 ∧
  obs W (close W s).1.2 = obs W s.2 ∧
  nb_step W (close W s).1.2 = nb_step W s.2 ∧
  nb_targets_alive W (close W s).1.2 = nb_targets_alive W s.2 ∧
  np_random (close W s).1.1 = np_random s.1 ∧
  display (close W s).1.1
  = display s.1 ++ match viewer W s.2 with Some v => [ViewerClosed v] | None => [] end.
Proof.
  destruct s as [p self].
  unfold close, bind, get_self, on_process, modify_self, viewer_close, ret. simpl.
  destruct (viewer W self); simpl; repeat split; try done.
  by rewrite app_nil_r.
Qed.

(** * The declared spaces *)

Lemma contains_action nb_agents (a : Action) :
  contains (declared_action_space nb_agents) (value_of_action a)
  = (length a =? length (range nb_agents))%nat
    && forallb (fun i =>
                  match dict_get (agent_key i) a with
                  | Some c => (0 <=? c) && (c <? NB_ACTIONS)
                  | None => false
                  end) (range nb_agents).
Proof.
  unfold declared_action_space, value_of_action.
  cbn -[range Z.leb Z.ltb NB_ACTIONS]. rewrite !length_fmap. f_equal.
  induction (range nb_agents) as [|i l IH]; [done|].
  rewrite fmap_cons. cbn -[Z.leb Z.ltb agent_key NB_ACTIONS].
  rewrite (dict_get_fmap VInt).
  destruct (dict_get (agent_key i) a) as [c|]; [|done].
  cbn -[Z.leb Z.ltb agent_key NB_ACTIONS]. f_equal. apply IH.
Qed.

(** X7: the declared action space holds an action mapping exactly when the
    mapping has one entry per agent and, under each of the keys ["agent_1"] to
    ["agent_<nb_agents>"], a code from 0 to [NB_ACTIONS - 1]. *)
Theorem action_space_contains nb_agents (a : Action) :
  contains (declared_action_space nb_agents) (value_of_action a) = true <->
  length a = Z.to_nat nb_agents ∧
  ∀ i, 0 <= i < nb_agents ->
       ∃ c, dict_get (agent_key i) a = Some c ∧ 0 <= c < NB_ACTIONS.
Proof.
  rewrite contains_action, andb_true_iff, Nat.eqb_eq, length_range, forallb_forall.
  split; intros [Hlen Hall]; (split; [done|]).
  - intros i Hi. specialize (Hall i).
    destruct (dict_get (agent_key i) a) as [c|].
    + exists c. split; [done|].
      assert (H : (0 <=? c) && (c <? NB_ACTIONS) = true)
        by (apply Hall, list_elem_of_In, elem_of_range; done).
      apply andb_true_iff in H. lia.
    + exfalso. assert (false = true); [|done].
      apply Hall, list_elem_of_In, elem_of_range. done.
  - intros i Hi%list_elem_of_In%elem_of_range.
    destruct (Hall i Hi) as (c & -> & Hc). apply andb_true_iff. lia.
Qed.

(** X8: the declared observation space holds an observation exactly when its
    map is [grid_size] by [grid_size] with every value from 0 to 2, and its
    positions have one entry per agent with both coordinates from 0 to
    [grid_size - 2]. *)
Theorem observation_space_contains grid_size nb_agents (o : Observation) :
  contains (declared_observation_space grid_size nb_agents) (value_of_obs o) = true <->
  has_shape grid_size grid_size (map o) = true ∧
  (∀ row x, row ∈ map o -> x ∈ row -> 0 <= x <= 2) ∧
  length (agent_position o) = Z.to_nat nb_agents ∧
  ∀ i, 0 <= i < nb_agents ->
       ∃ x y, dict_get (agent_key i) (agent_position o) = Some (x, y) ∧
              0 <= x <= grid_size - 2 ∧ 0 <= y <= grid_size - 2.
Proof.
  rewrite contains_declared, !andb_true_iff, Nat.eqb_eq, length_range, !forallb_forall.
  split.
  - intros [[Hs Hv] [Hlen Hall]]. repeat split; try done.
    + specialize (Hv row (proj1 (list_elem_of_In _ _) H)).
      rewrite forallb_forall in Hv.
      specialize (Hv x (proj1 (list_elem_of_In _ _) H0)). lia.
    + specialize (Hv row (proj1 (list_elem_of_In _ _) H)).
      rewrite forallb_forall in Hv.
      specialize (Hv x (proj1 (list_elem_of_In _ _) H0)). lia.
    + intros i Hi. specialize (Hall i).
      destruct (dict_get (agent_key i) (agent_position o)) as [[x y]|].
      * exists x, y. split; [done|].
        assert (H : (0 <=? x) && (x <? grid_size - 1) && ((0 <=? y) && (y <? grid_size - 1)) = true)
          by (apply Hall, list_elem_of_In, elem_of_range; done).
        rewrite !andb_true_iff in H. lia.
      * exfalso. assert (false = true); [|done].
        apply Hall, list_elem_of_In, elem_of_range. done.
  - intros (Hs & Hv & Hlen & Hall). repeat split; try done.
    + intros row Hrow%list_elem_of_In. rewrite forallb_forall.
      intros x Hx%list_elem_of_In. specialize (Hv row x Hrow Hx). lia.
    + intros i Hi%list_elem_of_In%elem_of_range.
      destruct (Hall i Hi) as (x & y & -> & Hx & Hy). rewrite !andb_true_iff. lia.
Qed.

Lemma dict_get_agent_keys {A} (f : Z -> A) (l : list Z) i :
  dict_get (agent_key i) ((fun j => (agent_key j, f j)) <$> l)
  = if decide (i ∈ l) then Some (f i) else None.
Proof.
  induction l as [|j l IH]; [done|].
  rewrite fmap_cons. cbn [dict_get].
  destruct (String.eqb_spec (agent_key i) (agent_key j)) as [Heq|Hne].
  - apply agent_key_inj in Heq as ->. rewrite decide_True; [done|by left].
  - rewrite IH. destruct (decide (i ∈ l)) as [Hin|Hnin].
    + rewrite decide_True; [done|by right].
    + rewrite decide_False; [done|].
      intros [->|?]%elem_of_cons; done.
Qed.

(** X9: both declared spaces are keyed by the agents: the action space has
    the entry [Discrete(NB_ACTIONS)] and the position space a pair of
    [Discrete(grid_size - 1)] under ["agent_<i+1>"] exactly for [i] from 0 to
    [nb_agents - 1], so each has as many entries as agents, none for a negative
    [nb_agents]. *)
Theorem declared_spaces_keys grid_size nb_agents i :
  dict_get (agent_key i) (spaces (declared_action_space nb_agents))
  = (if decide (0 <= i < nb_agents) then Some (Discrete NB_ACTIONS) else None) ∧
  (dict_get "agent_position" (spaces (declared_observation_space grid_size nb_agents))
     ≫= fun positions => dict_get (agent_key i) (spaces positions))
  = (if decide (0 <= i < nb_agents)
     then Some (Tuple [Discrete (grid_size - 1); Discrete (grid_size - 1)])
     else None) ∧
  length (spaces (declared_action_space nb_agents)) = Z.to_nat nb_agents.
Proof.
  unfold declared_action_space, declared_observation_space. cbn [spaces].
  split; [|split].
  - rewrite (dict_get_agent_keys (fun _ => Discrete NB_ACTIONS)).
    destruct (decide (i ∈ range nb_agents)) as [H|H]; rewrite elem_of_range in H.
    + by rewrite decide_True.
    + by rewrite decide_False.
  - cbn -[range agent_key].
    rewrite (dict_get_agent_keys
               (fun _ => Tuple [Discrete (grid_size - 1); Discrete (grid_size - 1)])).
    destruct (decide (i ∈ range nb_agents)) as [H|H]; rewrite elem_of_range in H.
    + by rewrite decide_True.
    + by rewrite decide_False.
  - by rewrite length_fmap, length_range.
Qed.

(** * Rendering *)

Lemma init_attributes (W : WorldClass) size nb_agents nb_targets nb_mobiles sd p self :
  (TeamCatcher_init W size nb_agents nb_targets nb_mobiles sd p).2 = Returned self ->
  grid_size W self = size ∧ obs W self = None ∧ viewer W self = None.
Proof.
  unfold TeamCatcher_init.
  destruct ((size - 1) ^ 2 <? nb_agents + nb_targets); [done|].
  destruct (declared_spaces_error size nb_agents); [done|].
  unfold bind, ret.
  destruct (World_new W size nb_agents nb_targets nb_mobiles sd p) as [p1 [e|w]]; [done|].
  destruct (seed sd p1) as [p2 [e|[]]]; [done|]. simpl. by intros [= <-].
Qed.

Section RenderFacts.

Variable W : WorldClass.
Variable element_value : Engine.MapElement -> Z.
Variable element_color : Engine.MapElement -> Color.
Variable pil_resize : Image -> Z -> Z -> Outcome Image.
Variable import_error : option Exn.
Variable viewer_error : option Exn.
Variable imshow_error : Image -> option Exn.
Variable isopen : Screen -> nat -> bool.

(** [render] and the image it computes, over the palette, the resize and the
    viewer of this section *)
Local Abbreviation rendering :=
  (render W element_value element_color pil_resize
          import_error viewer_error imshow_error isopen).
Local Abbreviation image_of := (render_image W element_value element_color pil_resize).

Implicit Types (s : Screen * TeamCatcher W) (mode : string).

Lemma at2_paint (m : list (list Z)) (image : Image) e i j :
  at2 (paint element_value element_color m image e) i j
  = v ← at2 m i j; px ← at2 image i j;
    Some (if v =? element_value e then element_color e else px).
Proof.
  unfold at2, paint. rewrite lookup_zip_with.
  destruct (m !! i) as [row|]; [|done].
  destruct (image !! i) as [irow|]; [|simpl; by destruct (row !! j)].
  change (zip_with (fun v px => if v =? element_value e then element_color e else px)
            row irow !! j
          = v ← row !! j; px ← irow !! j;
            Some (if v =? element_value e then element_color e else px)).
  by rewrite lookup_zip_with.
Qed.

Lemma at2_zeros n i j :
  at2 (zeros n) i j
  = if decide (i < Z.to_nat n ∧ j < Z.to_nat n)%nat then Some black else None.
Proof.
  unfold at2, zeros.
  destruct (decide (i < Z.to_nat n ∧ j < Z.to_nat n)%nat) as [[Hi Hj]|Hn].
  - rewrite lookup_replicate_2 by done. simpl. by rewrite lookup_replicate_2.
  - destruct (decide (i < Z.to_nat n)%nat) as [Hi|Hi].
    + rewrite lookup_replicate_2 by done. simpl.
      apply lookup_replicate_None. lia.
    + assert (H : replicate (Z.to_nat n) (replicate (Z.to_nat n) black) !! i = None)
        by (apply lookup_replicate_None; lia).
      by rewrite H.
Qed.

Lemma at2_shape n (m : list (list Z)) i j v :
  has_shape n n m = true -> at2 m i j = Some v ->
  (i < Z.to_nat n ∧ j < Z.to_nat n)%nat.
Proof.
  unfold has_shape, at2. rewrite andb_true_iff, forallb_forall.
  intros [Hr%Z.eqb_eq Hc] Hv.
  destruct (m !! i) as [row|] eqn:Hi; simpl in Hv; [|done].
  split.
  - apply lookup_lt_Some in Hi. lia.
  - specialize (Hc row). rewrite Z.eqb_eq in Hc.
    apply lookup_lt_Some in Hv.
    assert (Z.of_nat (length row) = n); [|lia].
    apply Hc, list_elem_of_In. by eapply list_elem_of_lookup_2.
Qed.

(** X10: on a map of the shape of the grid, [render] paints each cell with
    the colour of its value before resizing, and leaves no pixel outside the
    map: the colour is that of the last of empty, agent, target, mobile whose
    value the cell holds, and black when it holds none of them. *)
Theorem painted_pixels n (m : list (list Z)) (i j : nat) :
  has_shape n n m = true ->
  at2 (painted element_value element_color n m) i j
  = pixel_color element_value element_color <$> at2 m i j.
Proof.
  intros Hs. unfold painted. simpl foldl. rewrite !at2_paint, at2_zeros.
  destruct (at2 m i j) as [v|] eqn:Hv; simpl; [|done].
  rewrite decide_True by (by eapply at2_shape). simpl.
  unfold pixel_color.
  by destruct (v =? element_value Engine.mobile), (v =? element_value Engine.target),
              (v =? element_value Engine.agent), (v =? element_value Engine.empty).
Qed.

(** X11: [render] returns exactly when its image is computed and, in a mode
    other than ["rgb_array"], the import of gym's rendering, the construction of
    a viewer when none is held, and [imshow] raise nothing; the image is
    computed exactly when the grid size is not negative, an observation is held
    (a [reset] or a [step] has run), its map has the shape of the grid and the
    resize returns.  A call that raises changes nothing, except that a viewer
    it has constructed stays assigned when it is [imshow] that raises. *)
Theorem render_returns_iff mode fig_size s :
  (returned (render W element_value element_color pil_resize
                    import_error viewer_error imshow_error isopen mode fig_size s).2 = true <->
   ∃ image, image_of s.2 fig_size = Returned image ∧
            (mode = "rgb_array" ∨
             (import_error = None ∧
              (viewer W s.2 = None -> viewer_error = None) ∧
              imshow_error image = None))) ∧
  (returned (image_of s.2 fig_size) = true <->
   0 <= grid_size W s.2 ∧
   ∃ o, obs W s.2 = Some o ∧
        has_shape (grid_size W s.2) (grid_size W s.2) (map o) = true ∧
        returned (pil_resize (painted element_value element_color (grid_size W s.2) (map o))
                             (grid_size W s.2 * fig_size)
                             (grid_size W s.2 * fig_size)) = true) ∧
  (returned (rendering mode fig_size s).2 = false ->
   (rendering mode fig_size s).1 = s ∨
   (mode ≠ "rgb_array" ∧ viewer W s.2 = None ∧
    (∃ image, image_of s.2 fig_size = Returned image ∧ imshow_error image ≠ None) ∧
    (rendering mode fig_size s).1
    = ({| process := process s.1;
          viewers_made := S (viewers_made s.1);
          shown := shown s.1 |},
       set_viewer W (Some (viewers_made s.1)) s.2))).
Proof.
  split; [|split].
  - unfold render, show.
    destruct (image_of s.2 fig_size) as [e|image]; simpl.
    { split; [done|]. by intros (image & ? & _). }
    destruct (String.eqb_spec mode "rgb_array") as [->|Hmode]; simpl.
    { split; [|done]. intros _. exists image. split; [done|by left]. }
    split.
    + intros Hr. exists image. split; [done|]. right.
      destruct import_error; [done|].
      destruct (viewer W s.2) as [v|].
      * destruct (imshow_error image); [done|]. by repeat split.
      * destruct viewer_error; [done|]. simpl in Hr.
        destruct (imshow_error image); [done|]. by repeat split.
    + intros (image' & [= <-] & [?|(-> & Hv & ->)]); [done|].
      destruct (viewer W s.2) as [v|]; [done|].
      by rewrite Hv.
  - unfold render_image.
    destruct (Z.ltb_spec (grid_size W s.2) 0) as [Hneg|Hpos]; simpl.
    { split; [done|]. intros [? _]. lia. }
    destruct (obs W s.2) as [o|]; simpl.
    2:{ split; [done|]. by intros (_ & o & ? & _). }
    destruct (has_shape _ _ (map o)) eqn:Hs; simpl.
    2:{ split; [done|]. intros (_ & o' & [= <-] & Hs' & _). congruence. }
    split.
    + intros Hr. split; [done|]. by exists o.
    + by intros (_ & o' & [= <-] & _ & Hr).
  - unfold render, show.
    destruct (image_of s.2 fig_size) as [e|image]; simpl; [by left|].
    destruct (String.eqb_spec mode "rgb_array") as [->|Hmode]; simpl; [by left|].
    destruct import_error; [by left|].
    destruct (viewer W s.2) as [v|] eqn:Hv.
    + destruct (imshow_error image); [by left|done].
    + destruct viewer_error; [by left|]. simpl.
      destruct (imshow_error image) as [e|] eqn:Hsh; [|done].
      intros _. right. split; [done|]. split; [done|]. split; [|done].
      exists image. split; [done|]. by rewrite Hsh.
Qed.

(** X12: a newly constructed environment cannot be rendered: whatever the
    mode and the figure size, [render] raises a [TypeError] and creates no
    viewer, until [reset] has run. *)
Theorem render_before_reset size nb_agents nb_targets nb_mobiles sd p
    (self : TeamCatcher W) mode fig_size (scr : Screen) :
  (TeamCatcher_init W size nb_agents nb_targets nb_mobiles sd p).2 = Returned self ->
  0 <= size ->
  render W element_value element_color pil_resize
         import_error viewer_error imshow_error isopen mode fig_size (scr, self)
  = ((scr, self), Raised (Raise TypeError [])).
Proof.
  intros (Hg & Ho & _)%init_attributes Hpos.
  unfold render, render_image. simpl. rewrite Hg, Ho.
  destruct (Z.ltb_spec size 0); [lia|done].
Qed.

(** X13: in a mode other than ["rgb_array"], a call of [render] that returns
    has shown in the viewer the very image that the mode ["rgb_array"] returns,
    and what it returns is [isopen] of that viewer as it is after [imshow]; it
    keeps the viewer the environment holds and constructs one only when it holds
    none; the mode ["rgb_array"] changes nothing at all. *)
Theorem render_human mode fig_size s image :
  mode ≠ "rgb_array" ->
  (render W element_value element_color pil_resize
          import_error viewer_error imshow_error isopen "rgb_array" fig_size s).2
    = Returned (RgbArray image) ->
  returned (rendering mode fig_size s).2 = true ->
  (rendering "rgb_array" fig_size s).1 = s ∧
  (rendering mode fig_size s).2
    = Returned (IsOpen (isopen (rendering mode fig_size s).1.1
                               (default (viewers_made s.1) (viewer W s.2)))) ∧
  viewer W (rendering mode fig_size s).1.2
    = Some (default (viewers_made s.1) (viewer W s.2)) ∧
  shown (rendering mode fig_size s).1.1
    = shown s.1 ++ [(default (viewers_made s.1) (viewer W s.2), image)] ∧
  viewers_made (rendering mode fig_size s).1.1
    = match viewer W s.2 with
      | Some _ => viewers_made s.1
      | None => S (viewers_made s.1)
      end.
Proof.
  intros Hmode%String.eqb_neq. unfold render, show. rewrite Hmode.
  destruct (image_of s.2 fig_size) as [e|im]; simpl; [done|].
  intros [= ->].
  destruct import_error; [done|].
  destruct (viewer W s.2) as [v|] eqn:Hv; simpl.
  - destruct (imshow_error image); [done|]. simpl. by rewrite ?Hv.
  - destruct viewer_error; [done|]. simpl.
    destruct (imshow_error image); [done|]. simpl. by rewrite ?Hv.
Qed.

(** X14: [close] after a first rendering closes the window of the viewer
    that rendering constructed and drops the handle; the next rendering
    constructs a new viewer, with another handle. *)
Theorem close_then_render mode fig_size s :
  mode ≠ "rgb_array" ->
  viewer W s.2 = None ->
  returned (rendering mode fig_size s).2 = true ->
  let s1 := (render W element_value element_color pil_resize
                    import_error viewer_error imshow_error isopen mode fig_size s).1 in
  let s2 := (on_screen W (close W) s1).1 in
  let s3 := (rendering mode fig_size s2).1 in
  viewer W s1.2 = Some (viewers_made s.1) ∧
  display (process s2.1) = display (process s.1) ++ [ViewerClosed (viewers_made s.1)] ∧
  viewer W s2.2 = None ∧
  returned (rendering mode fig_size s2).2 = true ∧
  viewer W s3.2 = Some (S (viewers_made s.1)).
Proof.
  intros Hmode%String.eqb_neq Hv Hr.
  assert (Hok : ∃ im, image_of s.2 fig_size = Returned im ∧ import_error = None ∧
                      viewer_error = None ∧ imshow_error im = None).
  { revert Hr. unfold render, show. rewrite Hmode, Hv.
    destruct (image_of s.2 fig_size) as [e|im]; [done|].
    destruct import_error; [done|]. destruct viewer_error; [done|]. simpl.
    destruct (imshow_error im) eqn:Hshow; [done|]. intros _. by exists im. }
  destruct Hok as (im & Him & Himp & Hnew & Hshow).
  assert (H1 : (rendering mode fig_size s).1
               = ({| process := process s.1;
                     viewers_made := S (viewers_made s.1);
                     shown := shown s.1 ++ [(viewers_made s.1, im)] |},
                  set_viewer W (Some (viewers_made s.1)) s.2)).
  { unfold render, show. rewrite Him, Hmode, Himp, Hv, Hnew. simpl. by rewrite Hshow. }
  cbv zeta. rewrite H1.
  unfold on_screen, close, bind, get_self, on_process, modify_self, viewer_close, ret.
  simpl. unfold render, show. simpl.
  assert (Him' : image_of (set_viewer W None
                             (set_viewer W (Some (viewers_made s.1)) s.2)) fig_size
                 = Returned im) by exact Him.
  rewrite Him', Hmode, Himp, Hnew. simpl. by rewrite Hshow.
Qed.

Lemma step_viewer action (p : Process) (self : TeamCatcher W) v :
  step W action (p, set_viewer W v self)
  = (((step W action (p, self)).1.1, set_viewer W v (step W action (p, self)).1.2),
     (step W action (p, self)).2).
Proof.
  rewrite !step_cases. simpl.
  destruct (World_update W action (p, world W self)) as [[p' w] [e|[]]]; simpl; [done|].
  by destruct (nb_step W self).
Qed.

(** X15: rendering is inert for the simulation: a [step] called after a
    [render] returns what it returns without it and leaves the same process and
    the same engine. *)
Theorem render_then_step mode fig_size action s :
  (on_screen W (step W action)
     (render W element_value element_color pil_resize
             import_error viewer_error imshow_error isopen mode fig_size s).1).2
  = (on_screen W (step W action) s).2 ∧
  process (on_screen W (step W action) (rendering mode fig_size s).1).1.1
  = process (on_screen W (step W action) s).1.1 ∧
  world W (on_screen W (step W action) (rendering mode fig_size s).1).1.2
  = world W (on_screen W (step W action) s).1.2.
Proof.
  unfold render, show.
  destruct (image_of s.2 fig_size) as [e|im]; simpl; [done|].
  destruct (String.eqb mode "rgb_array"); simpl; [done|].
  destruct import_error; [done|].
  destruct s as [scr self]. simpl.
  destruct (viewer W self) as [v|]; simpl.
  - destruct (imshow_error im); [done|].
    unfold on_screen. simpl. by destruct (step W action (process scr, self)) as [[p' e'] r].
  - destruct viewer_error; [done|]. simpl.
    destruct (imshow_error im); unfold on_screen; simpl; rewrite step_viewer;
      by destruct (step W action (process scr, self)) as [[p' e'] r].
Qed.

End RenderFacts.

Lemma painted_pixels_witness :
  has_shape 4 4 [[1; 1; 2; 0]; [0; 0; 0; 0]; [0; 0; 0; 0]; [0; 0; 0; 0]] = true ∧
  at2 (painted Engine.MapElement_value demo_color 4
         [[1; 1; 2; 0]; [0; 0; 0; 0]; [0; 0; 0; 0]; [0; 0; 0; 0]]) 0 2
  = Some (Byte.xff, Byte.x00, Byte.x00).
Proof.
  assert (H : has_shape 4 4 [[1; 1; 2; 0]; [0; 0; 0; 0]; [0; 0; 0; 0]; [0; 0; 0; 0]] = true)
    by reflexivity.
  split; [exact H|].
  rewrite (painted_pixels Engine.MapElement_value demo_color 4 _ 0 2 H). reflexivity.
Defined.

Lemma render_before_reset_witness :
  (TeamCatcher_init demo_game 4 2 1 0 (Some 42) fresh_process).2 = Returned demo_env ∧
  0 <= 4 ∧
  render demo_game Engine.MapElement_value demo_color nearest
         None None imshow_works stays_open "human" 8
         (demo_screen, demo_env)
  = ((demo_screen, demo_env), Raised (Raise TypeError [])).
Proof.
  assert (H : (TeamCatcher_init demo_game 4 2 1 0 (Some 42) fresh_process).2
              = Returned demo_env) by (rewrite demo_env_constructed; reflexivity).
  assert (H4 : 0 <= 4) by lia.
  exact (conj H (conj H4
           (render_before_reset demo_game Engine.MapElement_value demo_color nearest
              None None imshow_works stays_open
              4 2 1 0 (Some 42) fresh_process demo_env "human" 8 demo_screen H H4))).
Defined.

Lemma render_human_witness :
  ∃ image,
    "human" ≠ "rgb_array" ∧
    (render demo_game Engine.MapElement_value demo_color nearest
            None None imshow_works stays_open "rgb_array" 1
            (demo_screen, demo_start.2)).2 = Returned (RgbArray image) ∧
    (render demo_game Engine.MapElement_value demo_color nearest
            None None imshow_works stays_open "human" 1
            (demo_screen, demo_start.2)).2 = Returned (IsOpen true) ∧
    shown (render demo_game Engine.MapElement_value demo_color nearest
                  None None imshow_works stays_open "human" 1
                  (demo_screen, demo_start.2)).1.1 = [(0%nat, image)].
Proof.
  eexists.
  assert (Hm : "human" ≠ "rgb_array") by discriminate.
  assert (H : (render demo_game Engine.MapElement_value demo_color nearest
                 None None imshow_works stays_open "rgb_array" 1
                 (demo_screen, demo_start.2)).2
              = Returned (RgbArray
                  [[(Byte.x00, Byte.x00, Byte.xff); (Byte.x00, Byte.x00, Byte.xff);
                    (Byte.xff, Byte.x00, Byte.x00); (Byte.xff, Byte.xff, Byte.xff)];
                   [(Byte.xff, Byte.xff, Byte.xff); (Byte.xff, Byte.xff, Byte.xff);
                    (Byte.xff, Byte.xff, Byte.xff); (Byte.xff, Byte.xff, Byte.xff)];
                   [(Byte.xff, Byte.xff, Byte.xff); (Byte.xff, Byte.xff, Byte.xff);
                    (Byte.xff, Byte.xff, Byte.xff); (Byte.xff, Byte.xff, Byte.xff)];
                   [(Byte.xff, Byte.xff, Byte.xff); (Byte.xff, Byte.xff, Byte.xff);
                    (Byte.xff, Byte.xff, Byte.xff); (Byte.xff, Byte.xff, Byte.xff)]]))
    by (vm_compute; reflexivity).
  assert (Hr : returned (render demo_game Engine.MapElement_value demo_color nearest
                           None None imshow_works stays_open "human" 1
                           (demo_screen, demo_start.2)).2 = true)
    by (vm_compute; reflexivity).
  split; [exact Hm|]. split; [exact H|].
  destruct (render_human demo_game Engine.MapElement_value demo_color nearest
              None None imshow_works stays_open
              "human" 1 (demo_screen, demo_start.2) _ Hm H Hr) as (_ & Ho & _ & Hs & _).
  split; [rewrite Ho; reflexivity|].
  rewrite Hs. vm_compute. reflexivity.
Defined.

Lemma close_then_render_witness :
  "human" ≠ "rgb_array" ∧
  viewer demo_game demo_start.2 = None ∧
  returned (render demo_game Engine.MapElement_value demo_color nearest
                   None None imshow_works stays_open "human" 8
                   (demo_screen, demo_start.2)).2 = true ∧
  viewer demo_game
    (render demo_game Engine.MapElement_value demo_color nearest
            None None imshow_works stays_open "human" 8
       (on_screen demo_game (close demo_game)
          (render demo_game Engine.MapElement_value demo_color nearest
                  None None imshow_works stays_open "human" 8
                  (demo_screen, demo_start.2)).1).1).1.2 = Some 1%nat.
Proof.
  assert (Hm : "human" ≠ "rgb_array") by discriminate.
  assert (Hv : viewer demo_game demo_start.2 = None) by (vm_compute; reflexivity).
  assert (Hr : returned (render demo_game Engine.MapElement_value demo_color nearest
                           None None imshow_works stays_open "human" 8
                           (demo_screen, demo_start.2)).2 = true)
    by (vm_compute; reflexivity).
  split; [exact Hm|]. split; [exact Hv|]. split; [exact Hr|].
  exact (proj2 (proj2 (proj2 (proj2
           (close_then_render demo_game Engine.MapElement_value demo_color nearest
              None None imshow_works stays_open
              "human" 8 (demo_screen, demo_start.2) Hm Hv Hr))))).
Defined.
